(** * rss-to-podcast: the feed-to-speech worker, embedded in Rocq

    Source: [src/main.go], second document, [package worker]
    (the first document of that file is the older [package main], whose
    [speechSynthesizeWorker] is the predecessor of the worker and is
    embedded too, because the worker's "legacy" path refers to it).

    Layout:
    - [GoLib]: the pieces of the Go standard library the worker calls
      (strings, encoding/hex, crypto/md5, time, os), as executable models;
    - [Worker]: the producer [CreateSpeechFromItems], the dedup gate
      [fileExistsAndLog], the remote worker [processSpeechGeneration], the
      local worker [processSpeechGenerationOffline], over a world made of a
      file system, a backend state, a clock and a trace of effects;
    - [Demo]: concrete feeds, backends and worlds on which the statements
      are evaluated;
    - the theorems. *)

From Stdlib Require Import ZArith Floats Uint63 Lia.
From Stdlib Require Import Strings.Byte Strings.Ascii.
From stdpp Require Import gmap strings list.

Open Scope Z_scope.

(* ===================================================================== *)
(** * Models of the Go standard library *)
(* ===================================================================== *)

Module GoLib.

(** ** Go strings are byte sequences; [[]byte(s)] exposes them. *)

Definition bytes := list byte.

Definition bytes_of_string (s : string) : bytes := String.list_byte_of_string s.

Definition byte_val (b : byte) : Z := Z.of_N (Byte.to_N b).

(** ** package strings *)

(** [strings.ToLower] on the ASCII letters: 'A'..'Z' are mapped to 'a'..'z'
    and every other byte is kept.  Go also lower-cases the letters outside
    ASCII; none of them becomes a 'z' or an 'h', the only letters the worker
    looks for in the result. *)
Definition lower_ascii (c : ascii) : ascii :=
  let n := Ascii.N_of_ascii c in
  if ((65 <=? n) && (n <=? 90))%N then Ascii.ascii_of_N (n + 32) else c.

Fixpoint ToLower (s : string) : string :=
  match s with
  | EmptyString => EmptyString
  | String c r => String (lower_ascii c) (ToLower r)
  end.

(** [strings.HasPrefix s p] *)
Fixpoint HasPrefix (s p : string) {struct p} : bool :=
  match p, s with
  | EmptyString, _ => true
  | String _ _, EmptyString => false
  | String a p', String b s' => if Ascii.eqb a b then HasPrefix s' p' else false
  end.

(** [strings.Contains s substr]: some suffix of [s] starts with [substr]. *)
Fixpoint Contains (s substr : string) : bool :=
  HasPrefix s substr ||
  match s with
  | EmptyString => false
  | String _ r => Contains r substr
  end.

(** [strings.ReplaceAll s old new] for a one-byte [old]. *)
Fixpoint ReplaceAll (s : string) (old : ascii) (new : string) : string :=
  match s with
  | EmptyString => EmptyString
  | String c r =>
      if Ascii.eqb c old then new +:+ ReplaceAll r old new
      else String c (ReplaceAll r old new)
  end.

(** [s[:n]] on a string that is at least [n] bytes long. *)
Fixpoint prefix (n : nat) (s : string) : string :=
  match n, s with
  | S n', String c r => String c (prefix n' r)
  | _, _ => EmptyString
  end.

(** The one-byte string of a line feed. *)
Definition newline : string := String (Ascii.ascii_of_N 10) EmptyString.

(** A permission written in octal: [octal 7 5 5] is Go's [0o755]. *)
Definition octal (u g o : Z) : Z := u * 64 + g * 8 + o.

(** ** package encoding/hex *)

Definition hexdigit (n : Z) : ascii :=
  Ascii.ascii_of_N (Z.to_N (if n <? 10 then 48 + n else 87 + n)).

(** [hex.EncodeToString]: two lower-case digits per byte, high nibble first. *)
Fixpoint EncodeToString (src : bytes) : string :=
  match src with
  | [] => EmptyString
  | b :: r =>
      String (hexdigit (Z.shiftr (byte_val b) 4))
        (String (hexdigit (Z.land (byte_val b) 15)) (EncodeToString r))
  end.

(** ** package crypto/md5 (RFC 1321) on 32-bit words held in [Z] *)

Module md5.

Definition w32 (x : Z) : Z := x mod 2 ^ 32.

Definition rotl (x : Z) (s : Z) : Z :=
  w32 (Z.lor (Z.shiftl x s) (Z.shiftr x (32 - s))).

Definition not32 (x : Z) : Z := Z.lxor x 0xffffffff.

Definition K : list Z :=
  [ 0xd76aa478; 0xe8c7b756; 0x242070db; 0xc1bdceee; 0xf57c0faf; 0x4787c62a;
    0xa8304613; 0xfd469501; 0x698098d8; 0x8b44f7af; 0xffff5bb1; 0x895cd7be;
    0x6b901122; 0xfd987193; 0xa679438e; 0x49b40821; 0xf61e2562; 0xc040b340;
    0x265e5a51; 0xe9b6c7aa; 0xd62f105d; 0x02441453; 0xd8a1e681; 0xe7d3fbc8;
    0x21e1cde6; 0xc33707d6; 0xf4d50d87; 0x455a14ed; 0xa9e3e905; 0xfcefa3f8;
    0x676f02d9; 0x8d2a4c8a; 0xfffa3942; 0x8771f681; 0x6d9d6122; 0xfde5380c;
    0xa4beea44; 0x4bdecfa9; 0xf6bb4b60; 0xbebfbc70; 0x289b7ec6; 0xeaa127fa;
    0xd4ef3085; 0x04881d05; 0xd9d4d039; 0xe6db99e5; 0x1fa27cf8; 0xc4ac5665;
    0xf4292244; 0x432aff97; 0xab9423a7; 0xfc93a039; 0x655b59c3; 0x8f0ccc92;
    0xffeff47d; 0x85845dd1; 0x6fa87e4f; 0xfe2ce6e0; 0xa3014314; 0x4e0811a1;
    0xf7537e82; 0xbd3af235; 0x2ad7d2bb; 0xeb86d391 ].

Definition shifts : list Z :=
  [ 7; 12; 17; 22; 7; 12; 17; 22; 7; 12; 17; 22; 7; 12; 17; 22;
    5; 9; 14; 20; 5; 9; 14; 20; 5; 9; 14; 20; 5; 9; 14; 20;
    4; 11; 16; 23; 4; 11; 16; 23; 4; 11; 16; 23; 4; 11; 16; 23;
    6; 10; 15; 21; 6; 10; 15; 21; 6; 10; 15; 21; 6; 10; 15; 21 ].

(** The running state (a, b, c, d). *)
Definition state : Type := Z * Z * Z * Z.

Definition init : state := (0x67452301, 0xefcdab89, 0x98badcfe, 0x10325476).

(** One of the 64 operations of a block; [M] is the block as 16 words. *)
Definition round (M : list Z) (st : state) (i : nat) : state :=
  let '(a, b, c, d) := st in
  let iz := Z.of_nat i in
  let '(f, g) :=
    if iz <? 16 then (Z.lor (Z.land b c) (Z.land (not32 b) d), iz)
    else if iz <? 32 then (Z.lor (Z.land d b) (Z.land (not32 d) c), (5 * iz + 1) mod 16)
    else if iz <? 48 then (Z.lxor (Z.lxor b c) d, (3 * iz + 5) mod 16)
    else (Z.lxor c (Z.lor b (not32 d)), (7 * iz) mod 16) in
  let f' := w32 (f + a + nth i K 0 + nth (Z.to_nat g) M 0) in
  (d, w32 (b + rotl f' (nth i shifts 0)), b, c).

Definition block (st : state) (M : list Z) : state :=
  let '(a0, b0, c0, d0) := st in
  let '(a, b, c, d) := fold_left (round M) (seq 0 64) st in
  (w32 (a0 + a), w32 (b0 + b), w32 (c0 + c), w32 (d0 + d)).

(** Little-endian packing of bytes into 32-bit words, four at a time. *)
Fixpoint words (fuel : nat) (l : list Z) : list Z :=
  match fuel, l with
  | S fuel', b0 :: b1 :: b2 :: b3 :: r =>
      (b0 + Z.shiftl b1 8 + Z.shiftl b2 16 + Z.shiftl b3 24) :: words fuel' r
  | _, _ => []
  end.

Fixpoint blocks (fuel : nat) (ws : list Z) (st : state) : state :=
  match fuel, ws with
  | S fuel', _ :: _ => blocks fuel' (skipn 16 ws) (block st (firstn 16 ws))
  | _, _ => st
  end.

Definition le_bytes (n : nat) (x : Z) : list Z :=
  map (fun i => Z.land (Z.shiftr x (8 * Z.of_nat i)) 255) (seq 0 n).

(** Padding: 0x80, zeros up to 56 mod 64, then the bit length on 8 bytes. *)
Definition pad (msg : list Z) : list Z :=
  let len := Z.of_nat (length msg) in
  let zeros := Z.to_nat ((55 - len) mod 64) in
  msg ++ [128] ++ repeat 0 zeros ++ le_bytes 8 ((8 * len) mod 2 ^ 64).

Definition byte_of_Z (z : Z) : byte :=
  match Byte.of_N (Z.to_N z) with Some b => b | None => x00 end.

(** [checkSum]: the 16-byte digest of everything written so far. *)
Definition checkSum (written : bytes) : bytes :=
  let p := pad (map byte_val written) in
  let ws := words (length p) p in
  let '(a, b, c, d) := blocks (length ws) ws init in
  map byte_of_Z (le_bytes 4 a ++ le_bytes 4 b ++ le_bytes 4 c ++ le_bytes 4 d).

(** The [hash.Hash] object of [md5.New()]: it remembers what was written.
    [Write] feeds it; [Sum(b)] "appends the current hash to b and returns the
    resulting slice; it does not change the underlying hash state". *)
Record digest := { written : bytes }.

Definition New : digest := {| written := [] |}.

Definition Write (d : digest) (p : bytes) : digest :=
  {| written := written d ++ p |}.

Definition Sum (d : digest) (b : bytes) : bytes := b ++ checkSum (written d).

End md5.

(** ** Values of the interface [error] *)

Inductive error :=
  | PathError (op path errno : string)   (* *fs.PathError of package os *)
  | RPCError (msg : string).             (* an error of the remote backend *)

(** ** package time: instants and durations in nanoseconds *)

(** Arithmetic on [int64], and on [int] on a 64-bit platform, wraps around. *)
Definition wrap64 (z : Z) : Z := (z + 2 ^ 63) mod 2 ^ 64 - 2 ^ 63.

Module time.

(** A [time.Time] as the number of nanoseconds since the Unix epoch;
    [.Local()] changes the location only, not the instant. *)
Definition Time : Type := Z.

(** A [time.Duration] is an int64 count of nanoseconds. *)
Definition Duration : Type := Z.

(** The zero [time.Time], January 1 of year 1, 00:00:00 UTC: 62135596800
    seconds before the Unix epoch. *)
Definition zero : Time := - 62135596800 * 1000000000.

(** [t.IsZero()] *)
Definition IsZero (t : Time) : bool := t =? zero.

(** [t.UnixNano()] is [(t.unixSec())*1e9 + int64(t.nsec())] in [int64]
    arithmetic: the nanoseconds since the Unix epoch when an [int64] holds
    them (a date from 1678 to 2262), and their wrap-around otherwise. *)
Definition UnixNano (t : Time) : Z := wrap64 t.

(** The instants whose nanoseconds since the Unix epoch fit an [int64]. *)
Definition representable (t : Time) : Prop := - 2 ^ 63 <= t < 2 ^ 63.

Definition Second : Duration := 1000000000.
Definition Hour : Duration := 3600 * Second.

Definition minDuration : Duration := - 2 ^ 63.
Definition maxDuration : Duration := 2 ^ 63 - 1.

(** [t.Sub(u)]: the difference, saturated to the int64 range. *)
Definition Sub (t u : Time) : Duration :=
  Z.max minDuration (Z.min maxDuration (t - u)).

(** [time.Since(t)] is [time.Now().Sub(t)]. *)
Definition Since (now t : Time) : Duration := Sub now t.

(** Conversion [float64(x)] of an integer below 2^63 in absolute value. *)
Definition float64_of_Z (z : Z) : float :=
  if z <? 0 then PrimFloat.opp (PrimFloat.of_uint63 (Uint63.of_Z (- z)))
  else PrimFloat.of_uint63 (Uint63.of_Z z).

(** [d.Hours()]: [hour := d / Hour; nsec := d % Hour;
    return float64(hour) + float64(nsec)/(60*60*1e9)]; Go's [/] and [%]
    truncate toward zero. *)
Definition Hours (d : Duration) : float :=
  PrimFloat.add (float64_of_Z (Z.quot d Hour))
    (PrimFloat.div (float64_of_Z (Z.rem d Hour)) 3600000000000%float).

End time.

(** ** package os: a file system of regular files and directories *)

Module os.

(** A node of the file system: a directory or a regular file, with its
    content (empty for a directory), permission bits and times. *)
Record File := {
  isdir : bool;
  data : bytes;
  mode : Z;
  atime : Z;
  mtime : Z
}.

(** The part of a path before its last [/]. *)
Fixpoint dir_aux (s : string) : option string :=
  match s with
  | EmptyString => None
  | String c r =>
      match dir_aux r with
      | Some d => Some (String c d)
      | None => if Ascii.eqb c "/" then Some EmptyString else None
      end
  end.

Definition parent (path : string) : string :=
  match dir_aux path with
  | Some EmptyString => "/"
  | Some d => d
  | None => "."
  end.

Definition is_directory (fs : gmap string File) (path : string) : bool :=
  match fs !! path with Some f => isdir f | None => false end.

(** [_, err := os.Stat(path); err == nil] *)
Definition Stat (fs : gmap string File) (path : string) : bool :=
  match fs !! path with Some _ => true | None => false end.

(** [os.WriteFile(name, data, perm)]: open with O_WRONLY|O_CREATE|O_TRUNC.
    An existing regular file is truncated and keeps its mode; a new file is
    created in an existing directory with mode [perm &^ umask]. *)
Definition WriteFile (umask : Z) (now : Z) (fs : gmap string File)
    (name : string) (d : bytes) (perm : Z) : gmap string File + error :=
  match fs !! name with
  | Some f =>
      if isdir f then inr (PathError "open" name "is a directory")
      else inl (<[name := {| isdir := false; data := d; mode := mode f;
                             atime := atime f; mtime := now |}]> fs)
  | None =>
      if is_directory fs (parent name)
      then inl (<[name := {| isdir := false; data := d;
                             mode := Z.land perm (Z.lnot umask);
                             atime := now; mtime := now |}]> fs)
      else inr (PathError "open" name "no such file or directory")
  end.

(** The time [os.Chtimes] hands to [utimensat] for one of its two
    arguments: [UTIME_OMIT], which leaves the file's time [old] as it is, for
    the zero [time.Time], and [syscall.NsecToTimespec(t.UnixNano())]
    otherwise.  The file system keeps the timespec it is given. *)
Definition utime (old : Z) (t : time.Time) : Z :=
  if time.IsZero t then old else time.UnixNano t.

(** [os.Chtimes(name, atime, mtime)] *)
Definition Chtimes (fs : gmap string File) (name : string) (a m : time.Time)
    : gmap string File + error :=
  match fs !! name with
  | Some f =>
      inl (<[name := {| isdir := isdir f; data := data f; mode := mode f;
                        atime := utime (atime f) a;
                        mtime := utime (mtime f) m |}]> fs)
  | None => inr (PathError "chtimes" name "no such file or directory")
  end.

End os.

End GoLib.

Import GoLib.

(* ===================================================================== *)
(** * The data passed around: feed items, configuration, requests *)
(* ===================================================================== *)

(** [gofeed.Item] and [gofeed.Feed], the fields the worker reads.  The two
    timestamps are pointers in Go: [None] is [nil]. *)
Record Item := {
  Title : string;
  Content : string;
  Description : string;
  PublishedParsed : option time.Time;
  UpdatedParsed : option time.Time
}.

Record Feed := {
  Feed_Title : string;
  Language : string;
  Items : list Item
}.

(** [config.Config], the fields the worker reads. *)
Record Config := {
  MaxItemPerFeed : Z;
  ItemSince : float;
  UseNaturalVoice : bool;
  SpeechSpeed : float;
  ConcurrentWorkers : Z;
  Feeds : list string
}.

Record WorkerRequest := {
  WR_Item : Item;
  WR_Directory : string;
  WR_LanguageCode : string;
  WR_UseNaturalVoice : bool;
  WR_SpeechSpeed : float
}.

(** The two models of [OfflineClient]. *)
Inductive OfflineModel := En | Zh.

(** What the worker calls outside this package and outside the standard
    library: the request builder of package [rss], the remote client, the
    tagger and the tag stripper of package [tool], the local models, and
    [filepath.Abs], which depends on the working directory. *)
Class Externals := {
  SSR : Type;       (* texttospeechpb.SynthesizeSpeechRequest *)
  Backend : Type;   (* the state of the service behind texttospeech.Client *)
  Audio : Type;     (* sherpa.GeneratedAudio *)
  GetSynthesizeSpeechRequests : Item -> string -> bool -> float -> list SSR;
  SynthesizeSpeech : Backend -> SSR -> Backend * (bytes + error);
  filepath_Abs : string -> string;
  WriteID3Tag : string -> string -> string -> gmap string os.File -> gmap string os.File;
  StripHtmlTags : string -> string;
  title_runes : string -> list Z;
  CHINESE_UNICODE_RANGE : Z -> bool;
  Generate : OfflineModel -> string -> Z -> float -> Audio;
  Save : Audio -> string -> gmap string os.File -> gmap string os.File * bool
}.

(* ===================================================================== *)
(** * The worker package *)
(* ===================================================================== *)

Module Worker.

Definition SPEECH_SYNTHESIZE_RETRY_CNT : Z := 5.

Section Embedding.

Context `{Ext : Externals}.

(** ** The world a worker acts on *)

(** The lines of [log.Printf] and [log.Fatalf], by their arguments. *)
Inductive LogMsg :=
  | LogFeedTitle (title : string)
  | LogAdding (title : string)
  | LogStart (title : string)
  | LogFileExists (path : string)
  | LogRetry (err : option error) (count : Z)
  | LogBackendError (err : error)
  | LogWriteError (err : error)
  | LogChtimesError (err : error)
  | LogFinished (title path : string)
  | LogFatalWrite (path : string).

(** The effects of the worker, in the order it performs them. *)
Inductive Event :=
  | EvLog (m : LogMsg)
  | EvSleep (d : time.Duration)
  | EvCall (ssr : SSR) (r : bytes + error)
  | EvWriteFile (path : string) (d : bytes) (perm : Z) (err : option error)
  | EvTag (path title dir : string)
  | EvSave (path : string) (ok : bool)
  | EvChtimes (path : string) (a m : time.Time) (err : option error).

(** The file system with the process's umask, the state of the remote
    service, the clock, and what the worker has done so far.  The clock
    moves when the worker sleeps; calls and writes take no time. *)
Record World := {
  fs : gmap string os.File;
  umask : Z;
  backend : Backend;
  now : time.Time;
  trace : list Event
}.

Definition emit (e : Event) (w : World) : World :=
  {| fs := fs w; umask := umask w; backend := backend w; now := now w;
     trace := trace w ++ [e] |}.

Definition log_Printf (m : LogMsg) (w : World) : World := emit (EvLog m) w.

Definition set_fs (f : gmap string os.File) (w : World) : World :=
  {| fs := f; umask := umask w; backend := backend w; now := now w;
     trace := trace w |}.

Definition set_backend (b : Backend) (w : World) : World :=
  {| fs := fs w; umask := umask w; backend := b; now := now w;
     trace := trace w |}.

(** [time.Sleep(d)]: the clock moves on by [d]. *)
Definition time_Sleep (d : time.Duration) (w : World) : World :=
  emit (EvSleep d)
    {| fs := fs w; umask := umask w; backend := backend w; now := now w + d;
       trace := trace w |}.

(** ** The producer *)

(** [isInRange]: [None] is the nil-pointer dereference of [*itemPublishTime]. *)
Definition isInRange (now : time.Time) (itemPublishTime : option time.Time)
    (itemSince : float) : option bool :=
  match itemPublishTime with
  | None => None
  | Some t => Some (PrimFloat.leb (time.Hours (time.Since now t)) itemSince)
  end.

Definition itemSize (size limit : Z) : Z :=
  if size >? limit then limit else size.

Definition feedLanguage (lang : string) : string :=
  if Contains (ToLower lang) "zh" then "cmn-CN" else lang.

Inductive Outcome :=
  | Finished
  | Panicked (reason : string).

(** The channel: the requests sent and not yet received, oldest first. *)
Definition Chan : Type := list WorkerRequest.

(** The loop [for _, item := range feed.Items[:itemSize]] of the producer. *)
Fixpoint produce (cfg : Config) (lang dir : string) (size : Z)
    (items : list Item) (itemCnt : Z) (ch : Chan) (w : World)
    : Outcome * Chan * World :=
  match items with
  | [] => (Finished, ch, w)
  | item :: rest =>
      match isInRange (now w) (PublishedParsed item) (ItemSince cfg) with
      | None => (Panicked "invalid memory address or nil pointer dereference", ch, w)
      | Some inrange =>
          if inrange && (itemCnt <? size) then
            let w1 := log_Printf (LogAdding (Title item)) w in
            let req := {| WR_Item := item; WR_LanguageCode := lang;
                          WR_Directory := dir;
                          WR_UseNaturalVoice := UseNaturalVoice cfg;
                          WR_SpeechSpeed := SpeechSpeed cfg |} in
            produce cfg lang dir size rest (itemCnt + 1) (ch ++ [req]) w1
          else produce cfg lang dir size rest itemCnt ch w
      end
  end.

Definition CreateSpeechFromItems (cfg : Config) (feed : Feed) (direcory : string)
    (ch : Chan) (w : World) : Outcome * Chan * World :=
  let w0 := log_Printf (LogFeedTitle (Feed_Title feed)) w in
  let size := itemSize (Z.of_nat (length (Items feed))) (MaxItemPerFeed cfg) in
  let lang := feedLanguage (Language feed) in
  if size <? 0 then (Panicked "slice bounds out of range", ch, w0)
  else produce cfg lang direcory size (firstn (Z.to_nat size) (Items feed)) 0 ch w0.

(** ** The dedup gate *)

Definition fileExistsAndLog (path : string) (w : World) : bool * World :=
  if os.Stat (fs w) path then (true, log_Printf (LogFileExists path) w)
  else (false, w).

(** [hash := md5.New().Sum([]byte(title)); hashString := hex.EncodeToString(hash[:]);
    if len(hashString) > 50 { hashString = hashString[:50] }] *)
Definition hashString (title : string) : string :=
  let hash := md5.Sum md5.New (bytes_of_string title) in
  let hs := EncodeToString hash in
  if 50 <? Z.of_nat (String.length hs) then prefix 50 hs else hs.

Definition legacyFilePath (title : string) : string :=
  filepath_Abs (ReplaceAll title "/" "\/" +:+ ".mp3").

Definition filePath (directory title ext : string) : string :=
  filepath_Abs (directory +:+ "/" +:+ hashString title +:+ ext).

(** [fileExistsAndLog(legacyFilePath) || fileExistsAndLog(filePath)] *)
Definition shouldSkip (legacy path : string) (w : World) : bool * World :=
  let '(found, w1) := fileExistsAndLog legacy w in
  if found then (true, w1) else fileExistsAndLog path w1.

(** The time stamped on the artifact (the closure [fileTime] of both workers). *)
Definition fileTime (item : Item) (now : time.Time) : time.Time :=
  match UpdatedParsed item with
  | Some t => t
  | None =>
      match PublishedParsed item with
      | Some t => t
      | None => now
      end
  end.

(** ** The remote worker *)

(** [resp, err = client.SynthesizeSpeech(ctx, ssr)] *)
Definition call_backend (ssr : SSR) (w : World) : (bytes + error) * World :=
  let '(b, r) := SynthesizeSpeech (backend w) ssr in
  (r, emit (EvCall ssr r) (set_backend b w)).

(** [if i > 0 { log.Printf("Retry ... count: %v", err, i); time.Sleep(time.Second) }] *)
Definition pause (i : Z) (err : option error) (w : World) : World :=
  if 0 <? i then time_Sleep time.Second (log_Printf (LogRetry err i) w) else w.

(** The loop [for i := 0; i < SPEECH_SYNTHESIZE_RETRY_CNT; i++] entered at
    [i] with [left] iterations to go; it yields the final [err], the audio
    accumulated so far and the world. *)
Fixpoint retry (left : nat) (i : Z) (ssr : SSR) (err : option error)
    (audioContent : bytes) (w : World) : option error * bytes * World :=
  match left with
  | O => (err, audioContent, w)
  | S left' =>
      let '(r, w2) := call_backend ssr (pause i err w) in
      match r with
      | inr e =>
          retry left' (i + 1) ssr (Some e) audioContent
            (log_Printf (LogBackendError e) w2)
      | inl content =>
          if 0 <? Z.of_nat (length content)
          then (None, audioContent ++ content, w2)
          else retry left' (i + 1) ssr None audioContent w2
      end
  end.

(** One pass of [for _, ssr := range speechRequests]: the retry loop from
    [i = 0] with [err = nil]. *)
Definition synthesizeChunk (ssr : SSR) (audioContent : bytes) (w : World)
    : option error * bytes * World :=
  retry (Z.to_nat SPEECH_SYNTHESIZE_RETRY_CNT) 0 ssr None audioContent w.

(** [for _, ssr := range speechRequests { ...; if err != nil { return err } }] *)
Fixpoint synthesizeAll (speechRequests : list SSR) (audioContent : bytes)
    (w : World) : (bytes + error) * World :=
  match speechRequests with
  | [] => (inl audioContent, w)
  | ssr :: rest =>
      let '(err, audio1, w1) := synthesizeChunk ssr audioContent w in
      match err with
      | Some e => (inr e, w1)
      | None => synthesizeAll rest audio1 w1
      end
  end.

(** How one pass of the worker's [for workerItem := range workerItems] ends:
    at the end of the body or by [continue], or by [return err], or by
    [log.Fatalf], which exits the process. *)
Inductive Flow :=
  | Next
  | Return (err : error)
  | Exit.

(** [os.WriteFile] on the world, traced. *)
Definition os_WriteFile (name : string) (d : bytes) (perm : Z) (w : World)
    : option error * World :=
  match os.WriteFile (umask w) (now w) (fs w) name d perm with
  | inl fs1 => (None, emit (EvWriteFile name d perm None) (set_fs fs1 w))
  | inr e => (Some e, emit (EvWriteFile name d perm (Some e)) w)
  end.

(** [os.Chtimes] on the world, traced. *)
Definition os_Chtimes (name : string) (a m : time.Time) (w : World)
    : option error * World :=
  match os.Chtimes (fs w) name a m with
  | inl fs1 => (None, emit (EvChtimes name a m None) (set_fs fs1 w))
  | inr e => (Some e, emit (EvChtimes name a m (Some e)) w)
  end.

(** [tool.WriteID3Tag(filePath, title, directory)] on the world, traced. *)
Definition tool_WriteID3Tag (path title dir : string) (w : World) : World :=
  emit (EvTag path title dir) (set_fs (WriteID3Tag path title dir (fs w)) w).

(** The stamping and the final log line, shared by the two workers. *)
Definition stamp (item : Item) (path : string) (w : World) : Flow * World :=
  let t := fileTime item (now w) in
  match os_Chtimes path t t w with
  | (Some e, w1) => (Return e, log_Printf (LogChtimesError e) w1)
  | (None, w1) => (Next, log_Printf (LogFinished (Title item) path) w1)
  end.

(** The end of the loop body of [processSpeechGeneration], from
    [os.WriteFile(filePath, audioContent, 0o755)] on. *)
Definition writeArtifact (workerItem : WorkerRequest) (path : string)
    (audioContent : bytes) (w : World) : Flow * World :=
  match os_WriteFile path audioContent (octal 7 5 5) w with
  | (Some e, w1) => (Return e, log_Printf (LogWriteError e) w1)
  | (None, w1) =>
      let w2 := tool_WriteID3Tag path (Title (WR_Item workerItem))
                  (WR_Directory workerItem) w1 in
      stamp (WR_Item workerItem) path w2
  end.

(** The body of the loop of [processSpeechGeneration] for one request. *)
Definition processItem (workerItem : WorkerRequest) (w : World) : Flow * World :=
  let feedItem := WR_Item workerItem in
  let w0 := log_Printf (LogStart (Title feedItem)) w in
  let path := filePath (WR_Directory workerItem) (Title feedItem) ".mp3" in
  let legacy := legacyFilePath (Title feedItem) in
  let '(skip, w1) := shouldSkip legacy path w0 in
  if skip then (Next, w1)
  else
    let speechRequests :=
      GetSynthesizeSpeechRequests feedItem (WR_LanguageCode workerItem)
        (WR_UseNaturalVoice workerItem) (WR_SpeechSpeed workerItem) in
    match synthesizeAll speechRequests [] w1 with
    | (inr e, w2) => (Return e, w2)
    | (inl audioContent, w2) => writeArtifact workerItem path audioContent w2
    end.

(** [processSpeechGeneration] on the requests its channel delivers to it, in
    order, the channel being closed behind them.  It yields what the
    function returns ([None] is [nil]; the process exit of the local
    variant is [Exit]), the requests it did not receive, and the world. *)
Fixpoint run_worker (body : WorkerRequest -> World -> Flow * World)
    (workerItems : Chan) (w : World) : Flow * Chan * World :=
  match workerItems with
  | [] => (Next, [], w)
  | workerItem :: rest =>
      match body workerItem w with
      | (Next, w1) => run_worker body rest w1
      | (stop, w1) => (stop, rest, w1)
      end
  end.

Definition processSpeechGeneration (workerItems : Chan) (w : World)
    : Flow * Chan * World :=
  run_worker processItem workerItems w.

(** ** The local worker *)

(** [client := *clients.En; for _, c := range title { if unicode.In(c, ...)
    { client = *clients.Zh; break } }] *)
Definition routeModel (title : string) : OfflineModel :=
  if existsb CHINESE_UNICODE_RANGE (title_runes title) then Zh else En.

Definition offlineContent (feedItem : Item) : string :=
  let content := Title feedItem +:+ newline +:+ newline in
  if 0 <? Z.of_nat (String.length (Content feedItem))
  then content +:+ StripHtmlTags (Content feedItem)
  else if 0 <? Z.of_nat (String.length (Description feedItem))
  then content +:+ StripHtmlTags (Description feedItem)
  else content.

(** The body of the loop of [processSpeechGenerationOffline]; the speed
    [0.8] is the binary64 value nearest to it. *)
Definition processItemOffline (workerItem : WorkerRequest) (w : World)
    : Flow * World :=
  let feedItem := WR_Item workerItem in
  let w0 := log_Printf (LogStart (Title feedItem)) w in
  let path := filePath (WR_Directory workerItem) (Title feedItem) ".wav" in
  let legacy := legacyFilePath (Title feedItem) in
  let '(skip, w1) := shouldSkip legacy path w0 in
  if skip then (Next, w1)
  else
    let audio := Generate (routeModel (Title feedItem)) (offlineContent feedItem)
                   1 0x1.999999999999ap-1%float in
    let '(fs1, ok) := Save audio path (fs w1) in
    let w2 := emit (EvSave path ok) (set_fs fs1 w1) in
    if negb ok then (Exit, log_Printf (LogFatalWrite path) w2)
    else stamp feedItem path w2.

Definition processSpeechGenerationOffline (workerItems : Chan) (w : World)
    : Flow * Chan * World :=
  run_worker processItemOffline workerItems w.

(** ** The pool *)

(** [float64(x)] for an [int]: the nearest binary64 number. *)
Definition float64_of_int (z : Z) : float :=
  if z =? - 2 ^ 63 then (-0x1p63)%float else time.float64_of_Z z.

(** [math.Min(x, y)] *)
Definition math_Min (x y : float) : float :=
  if PrimFloat.eqb x PrimFloat.neg_infinity || PrimFloat.eqb y PrimFloat.neg_infinity
  then PrimFloat.neg_infinity
  else if PrimFloat.is_nan x || PrimFloat.is_nan y then PrimFloat.nan
  else if PrimFloat.eqb x 0 && PrimFloat.eqb x y
  then (if PrimFloat.get_sign x then x else y)
  else if PrimFloat.ltb x y then x else y.

(** [int(f)]: the fraction is dropped; when no [int] holds the result the
    value depends on the implementation, which [None] stands for. *)
Definition int_of_float64 (f : float) : option Z :=
  match FloatOps.Prim2SF f with
  | SpecFloat.S754_zero _ => Some 0
  | SpecFloat.S754_finite s m e =>
      let v := if 0 <=? e then Z.pos m * 2 ^ e else Z.quot (Z.pos m) (2 ^ (- e)) in
      let z := if s then - v else v in
      if (- 2 ^ 63 <=? z) && (z <? 2 ^ 63) then Some z else None
  | _ => None
  end.

(** [NewWorkerGroup]: [channelSize := config.MaxItemPerFeed * len(config.Feeds)],
    a product of two [int]s, and
    [workerSize := int(math.Min(float64(config.ConcurrentWorkers), float64(channelSize)))]. *)
Definition channelSize (cfg : Config) : Z :=
  wrap64 (MaxItemPerFeed cfg * Z.of_nat (length (Feeds cfg))).

Definition workerSize (cfg : Config) : option Z :=
  int_of_float64 (math_Min (float64_of_int (ConcurrentWorkers cfg))
                           (float64_of_int (channelSize cfg))).

(** A worker goroutine is running ([None]) or has returned. *)
Definition WorkerState : Type := option Flow.

Record Pool := {
  chan : Chan;
  closed : bool;
  workers : list WorkerState;
  world : World
}.

(** Worker [i] takes a turn: it receives the oldest request and runs the
    loop body on it, or finds the channel closed and empty and returns nil;
    on an open empty channel it stays blocked.  A worker that has returned
    takes no turn. *)
Definition pool_step (p : Pool) (i : nat) : Pool :=
  match workers p !! i with
  | Some None =>
      match chan p with
      | [] =>
          if closed p
          then {| chan := []; closed := true;
                  workers := <[i := Some Next]> (workers p); world := world p |}
          else p
      | workerItem :: rest =>
          match processItem workerItem (world p) with
          | (Next, w1) =>
              {| chan := rest; closed := closed p; workers := workers p; world := w1 |}
          | (stop, w1) =>
              {| chan := rest; closed := closed p;
                 workers := <[i := Some stop]> (workers p); world := w1 |}
          end
      end
  | _ => p
  end.

(** The pool under a schedule: the list of the workers' turns. *)
Definition run_pool (schedule : list nat) (p : Pool) : Pool :=
  fold_left pool_step schedule p.

(** ** The worker of the older [package main]

    [speechSynthesizeWorker], whose artifacts are the ones the newer worker
    calls legacy: [Directory/sanitizedTitle.mp3], written with mode 0o644,
    one backend call per chunk and no retry.  Its request builder
    ([helper.GetSynthesizeSpeechRequests], three arguments) is taken to be
    the newer one at the request's speed. *)

Definition sanitizedTitle (title : string) : string := ReplaceAll title "/" "\/".

Definition main_filepath (workerItem : WorkerRequest) : string :=
  filepath_Abs (WR_Directory workerItem +:+ "/"
                +:+ (sanitizedTitle (Title (WR_Item workerItem)) +:+ ".mp3")).

Fixpoint main_synthesizeAll (speechRequests : list SSR) (audioContent : bytes)
    (w : World) : (bytes + error) * World :=
  match speechRequests with
  | [] => (inl audioContent, w)
  | ssr :: rest =>
      match call_backend ssr w with
      | (inr e, w1) => (inr e, log_Printf (LogBackendError e) w1)
      | (inl content, w1) => main_synthesizeAll rest (audioContent ++ content) w1
      end
  end.

(** The body of the loop of [speechSynthesizeWorker]; a file that exists
    makes the worker return nil, which is [None] here. *)
Definition main_processItem (workerItem : WorkerRequest) (w : World)
    : option (option error) * World :=
  let feedItem := WR_Item workerItem in
  let path := main_filepath workerItem in
  if os.Stat (fs w) path then (Some None, log_Printf (LogFileExists path) w)
  else
    let w0 := log_Printf (LogStart (Title feedItem)) w in
    let speechRequests :=
      GetSynthesizeSpeechRequests feedItem (WR_LanguageCode workerItem)
        (WR_UseNaturalVoice workerItem) (WR_SpeechSpeed workerItem) in
    match main_synthesizeAll speechRequests [] w0 with
    | (inr e, w1) => (Some (Some e), w1)
    | (inl audioContent, w1) =>
        match os_WriteFile path audioContent (octal 6 4 4) w1 with
        | (Some e, w2) => (Some (Some e), log_Printf (LogWriteError e) w2)
        | (None, w2) => (None, log_Printf (LogFinished (Title feedItem) path) w2)
        end
    end.

(** ** Vocabulary of the statements *)

(** The events a run added to the trace. *)
Definition new_events (w w1 : World) : list Event :=
  drop (length (trace w)) (trace w1).

Definition is_call (e : Event) : bool :=
  match e with EvCall _ _ => true | _ => false end.

Definition is_write (e : Event) : bool :=
  match e with EvWriteFile _ _ _ _ => true | _ => false end.

Definition is_sleep (e : Event) : bool :=
  match e with EvSleep _ => true | _ => false end.

(** The non-empty payloads the backend returned, in the order of the calls. *)
Fixpoint payloads (evs : list Event) : list bytes :=
  match evs with
  | [] => []
  | EvCall _ (inl a) :: r => if 0 <? Z.of_nat (length a) then a :: payloads r else payloads r
  | _ :: r => payloads r
  end.

Definition is_error (r : bytes + error) : bool :=
  match r with inr _ => true | inl _ => false end.

(** An attempt the retry loop does not accept: an error or an empty payload. *)
Definition is_failure (r : bytes + error) : bool :=
  match r with
  | inr _ => true
  | inl a => negb (0 <? Z.of_nat (length a))
  end.

(** What the backend answers to [n] calls in a row for [ssr], from state [b]. *)
Fixpoint replies (n : nat) (ssr : SSR) (b : Backend)
    : list (bytes + error) * Backend :=
  match n with
  | O => ([], b)
  | S n' =>
      let '(b1, r) := SynthesizeSpeech b ssr in
      let '(rs, b2) := replies n' ssr b1 in
      (r :: rs, b2)
  end.

(** The backend serves the chunks one after the other: for the j-th chunk
    it fails [ks !! j] times in a row, then returns a non-empty payload.
    The result is the list of these payloads and the state it is left in. *)
Fixpoint served (ks : list nat) (ssrs : list SSR) (b : Backend)
    : option (list bytes * Backend) :=
  match ks, ssrs with
  | [], [] => Some ([], b)
  | k :: ks', ssr :: ssrs' =>
      let '(rs, b1) := replies k ssr b in
      if forallb is_failure rs then
        match SynthesizeSpeech b1 ssr with
        | (b2, inl a) =>
            if 0 <? Z.of_nat (length a) then
              match served ks' ssrs' b2 with
              | Some (Bs, b3) => Some (a :: Bs, b3)
              | None => None
              end
            else None
        | (_, inr _) => None
        end
      else None
  | _, _ => None
  end.

(** The events of one backend call: the call, and the log line of an error. *)
Definition call_events (ssr : SSR) (r : bytes + error) : list Event :=
  match r with
  | inr e => [EvCall ssr r; EvLog (LogBackendError e)]
  | inl _ => [EvCall ssr r]
  end.

(** [attempts ssr n evs]: [evs] is the trace of [n] attempts for [ssr], each
    attempt after the first announced in the log and preceded by a sleep of
    one second. *)
Inductive attempts (ssr : SSR) : nat -> list Event -> Prop :=
  | attempts_first r : attempts ssr 1 (call_events ssr r)
  | attempts_retry n evs err r :
      attempts ssr n evs ->
      attempts ssr (S n)
        (evs ++ [EvLog (LogRetry err (Z.of_nat n)); EvSleep time.Second]
             ++ call_events ssr r).

(** The requests the worker builds for an item. *)
Definition speechRequests_of (workerItem : WorkerRequest) : list SSR :=
  GetSynthesizeSpeechRequests (WR_Item workerItem) (WR_LanguageCode workerItem)
    (WR_UseNaturalVoice workerItem) (WR_SpeechSpeed workerItem).

(** The artifact path of a request in the remote variant. *)
Definition artifact (workerItem : WorkerRequest) : string :=
  filePath (WR_Directory workerItem) (Title (WR_Item workerItem)) ".mp3".

(** The dedup gate lets the request through. *)
Definition gate_open (workerItem : WorkerRequest) (ext : string) (w : World) : Prop :=
  os.Stat (fs w) (legacyFilePath (Title (WR_Item workerItem))) = false /\
  os.Stat (fs w) (filePath (WR_Directory workerItem) (Title (WR_Item workerItem)) ext) = false.

(** The tagger leaves a file at the path it tags. *)
Definition tag_keeps (path title dir : string) : Prop :=
  forall fs0 : gmap string os.File,
    os.Stat fs0 path = true -> os.Stat (WriteID3Tag path title dir fs0) path = true.

(** The file at [path] carries the item's time as modification and access
    time; [now w1] is the clock when the stamp was made. *)
Definition stamped (item : Item) (path : string) (w1 : World) : Prop :=
  exists f, fs w1 !! path = Some f /\
    os.mtime f = fileTime item (now w1) /\ os.atime f = fileTime item (now w1).

(** The timestamp policy, as the specification words it: whatever time the
    item carries, a pass of the remote worker that goes through leaves the
    artifact stamped with it. *)
Definition stamps_every_item : Prop :=
  forall (workerItem : WorkerRequest) (w : World),
    gate_open workerItem ".mp3" w ->
    (processItem workerItem w).1 = Next ->
    stamped (WR_Item workerItem) (artifact workerItem) (processItem workerItem w).2.

(** Containment of item errors, as the specification words it: a terminal
    error on one request leaves the worker running, and the worker goes on
    with the requests queued behind it. *)
Definition item_errors_contained : Prop :=
  forall (workerItem : WorkerRequest) (rest : Chan) (w : World) (e : error),
    (processItem workerItem w).1 = Return e ->
    processSpeechGeneration (workerItem :: rest) w =
      processSpeechGeneration rest (processItem workerItem w).2.

(** The request the producer builds for an item. *)
Definition request_for (cfg : Config) (lang dir : string) (item : Item) : WorkerRequest :=
  {| WR_Item := item; WR_LanguageCode := lang; WR_Directory := dir;
     WR_UseNaturalVoice := UseNaturalVoice cfg; WR_SpeechSpeed := SpeechSpeed cfg |}.

(** The recency test on an item that has a publish time. *)
Definition recent (cfg : Config) (now : time.Time) (item : Item) : bool :=
  match isInRange now (PublishedParsed item) (ItemSince cfg) with
  | Some b => b
  | None => false
  end.

Definition has_publish (item : Item) : bool :=
  match PublishedParsed item with Some _ => true | None => false end.

(** The items the producer looks at. *)
Definition considered (cfg : Config) (feed : Feed) : list Item :=
  firstn (Z.to_nat (Z.min (Z.of_nat (length (Items feed))) (MaxItemPerFeed cfg)))
    (Items feed).

(** The gate stops the request: one of its two paths exists. *)
Definition gate_closed (workerItem : WorkerRequest) (ext : string) (w : World) : Prop :=
  os.Stat (fs w) (legacyFilePath (Title (WR_Item workerItem)))
  || os.Stat (fs w) (filePath (WR_Directory workerItem) (Title (WR_Item workerItem)) ext)
  = true.

(** The tagger removes no file, whatever it tags. *)
Definition tagger_keeps_files : Prop :=
  forall (path title dir p : string) (fs0 : gmap string os.File),
    os.Stat fs0 p = true -> os.Stat (WriteID3Tag path title dir fs0) p = true.

(** The items in front of the first one that has no publish time. *)
Fixpoint upto_missing (items : list Item) : list Item :=
  match items with
  | [] => []
  | item :: rest => if has_publish item then item :: upto_missing rest else []
  end.

(** ** The older producer and the older worker loop of [package main] *)

(** [WorkerRequest] of [package main]: it has no speech speed. *)
Record MainRequest := {
  MR_Item : Item;
  MR_Directory : string;
  MR_LanguageCode : string;
  MR_UseNaturalVoice : bool
}.

(** [slices.IndexFunc(feed.Items, func(item) bool { return
    time.Since(item.PublishedParsed.Local()).Hours() <= config.ItemSince })]
    of [main], counting from [i]; [None] is the nil-pointer dereference. *)
Fixpoint hasValidItems (cfg : Config) (now : time.Time) (items : list Item) (i : Z)
    : option Z :=
  match items with
  | [] => Some (-1)
  | item :: rest =>
      match isInRange now (PublishedParsed item) (ItemSince cfg) with
      | None => None
      | Some true => Some i
      | Some false => hasValidItems cfg now rest (i + 1)
      end
  end.

(** The loop of [createSpeechFromItems] of [package main]. *)
Fixpoint main_produce (cfg : Config) (lang dir : string) (items : list Item)
    (ch : list MainRequest) (w : World) : Outcome * list MainRequest * World :=
  match items with
  | [] => (Finished, ch, w)
  | item :: rest =>
      match isInRange (now w) (PublishedParsed item) (ItemSince cfg) with
      | None => (Panicked "invalid memory address or nil pointer dereference", ch, w)
      | Some true =>
          main_produce cfg lang dir rest
            (ch ++ [{| MR_Item := item; MR_LanguageCode := lang; MR_Directory := dir;
                       MR_UseNaturalVoice := UseNaturalVoice cfg |}]) w
      | Some false => main_produce cfg lang dir rest ch w
      end
  end.

Definition main_createSpeechFromItems (cfg : Config) (feed : Feed) (direcory : string)
    (ch : list MainRequest) (w : World) : Outcome * list MainRequest * World :=
  let w0 := log_Printf (LogFeedTitle (Feed_Title feed)) w in
  let size := itemSize (Z.of_nat (length (Items feed))) (MaxItemPerFeed cfg) in
  if size <? 0 then (Panicked "slice bounds out of range", ch, w0)
  else main_produce cfg (Language feed) direcory
         (firstn (Z.to_nat size) (Items feed)) ch w0.

(** [speechSynthesizeWorker] on the requests its channel delivers: it yields
    what the function returns, the requests it did not receive, and the
    world. *)
Fixpoint speechSynthesizeWorker (workerItems : Chan) (w : World)
    : option error * Chan * World :=
  match workerItems with
  | [] => (None, [], w)
  | workerItem :: rest =>
      match main_processItem workerItem w with
      | (None, w1) => speechSynthesizeWorker rest w1
      | (Some ret, w1) => (ret, rest, w1)
      end
  end.

(** The four fields a request of [package worker] shares with the older one. *)
Definition older (r : WorkerRequest) : MainRequest :=
  {| MR_Item := WR_Item r; MR_Directory := WR_Directory r;
     MR_LanguageCode := WR_LanguageCode r;
     MR_UseNaturalVoice := WR_UseNaturalVoice r |}.

End Embedding.

End Worker.

(** A tag that contains "zh" in any letter case: a 'z' or 'Z' followed at
    once by an 'h' or 'H'. *)
Definition contains_zh (lang : string) : Prop :=
  exists (pre post : string) (c1 c2 : ascii),
    lang = pre +:+ String c1 (String c2 post) /\
    (c1 = "z"%char \/ c1 = "Z"%char) /\ (c2 = "h"%char \/ c2 = "H"%char).

(** A lower-case hexadecimal digit. *)
Definition is_hexdigit (c : ascii) : bool :=
  let n := Ascii.N_of_ascii c in
  (((48 <=? n) && (n <=? 57)) || ((97 <=? n) && (n <=? 102)))%N.

Fixpoint all_chars (P : ascii -> bool) (s : string) : bool :=
  match s with
  | EmptyString => true
  | String c r => P c && all_chars P r
  end.

(** The byte two hexadecimal digits stand for. *)
Definition unhex (hi lo : ascii) : byte :=
  let v (c : ascii) := let n := Ascii.N_of_ascii c in
                       (if n <? 58 then n - 48 else n - 87)%N in
  md5.byte_of_Z (Z.of_N (v hi * 16 + v lo)).

(** The three execute bits of a mode, [0o111]. *)
Definition exec_bits (mode : Z) : Z := Z.land mode (octal 1 1 1).

(* ===================================================================== *)
(** * Concrete instances on which the statements are evaluated *)
(* ===================================================================== *)

Module Demo.

Import Worker.

Definition unavailable : error := RPCError "unavailable".

(** A scripted backend: its state is the list of the answers it still has
    to give; once the script is over, every call fails. *)
Definition scripted (b : list (bytes + error)) (ssr : string)
    : list (bytes + error) * (bytes + error) :=
  match b with
  | [] => ([], inr unavailable)
  | r :: rest => (rest, r)
  end.

(** One chunk for the title, one for the content and one for the
    description when there is one. *)
Definition chunks (item : Item) (lang : string) (natural : bool) (speed : float)
    : list string :=
  [Title item]
  ++ (if 0 <? Z.of_nat (String.length (Content item)) then [Content item] else [])
  ++ (if 0 <? Z.of_nat (String.length (Description item)) then [Description item] else []).

(** [filepath.Abs] on clean paths, the working directory being [/cwd]. *)
Definition Abs (p : string) : string :=
  if HasPrefix p "/" then p else "/cwd/" +:+ p.

(** A tagger that puts the title in front of the audio. *)
Definition tagger (path title dir : string) (fs : gmap string os.File)
    : gmap string os.File :=
  match fs !! path with
  | Some f =>
      <[path := {| os.isdir := os.isdir f;
                   os.data := bytes_of_string ("ID3" +:+ title) ++ os.data f;
                   os.mode := os.mode f; os.atime := os.atime f;
                   os.mtime := os.mtime f |}]> fs
  | None => fs
  end.

Definition ascii_runes (s : string) : list Z := map byte_val (bytes_of_string s).

Definition han (r : Z) : bool := (0x4E00 <=? r) && (r <=? 0x9FFF).

Definition speak (m : OfflineModel) (text : string) (sid : Z) (speed : float)
    : bytes := bytes_of_string text.

Definition save (a : bytes) (path : string) (fs : gmap string os.File)
    : gmap string os.File * bool :=
  match os.WriteFile (octal 0 2 2) 0 fs path a (octal 6 6 6) with
  | inl fs1 => (fs1, true)
  | inr _ => (fs, false)
  end.

Definition ext : Externals :=
  {| SSR := string;
     Backend := list (bytes + error);
     Audio := bytes;
     GetSynthesizeSpeechRequests := chunks;
     SynthesizeSpeech := scripted;
     filepath_Abs := Abs;
     WriteID3Tag := tagger;
     StripHtmlTags := fun s => s;
     title_runes := ascii_runes;
     CHINESE_UNICODE_RANGE := han;
     Generate := speak;
     Save := save |}.

Definition directory : os.File :=
  {| os.isdir := true; os.data := []; os.mode := octal 7 5 5;
     os.atime := 0; os.mtime := 0 |}.

(** The root, the working directory and the output directory [/out]. *)
Definition disk : gmap string os.File :=
  <["/out" := directory]> (<["/cwd" := directory]> (<["/" := directory]> ∅)).

(** Noon of some day, in nanoseconds. *)
Definition noon : time.Time := 1700000000 * time.Second.

Definition hours_ago (h : Z) : time.Time := noon - h * time.Hour.

Definition boot (script : list (bytes + error)) : @World ext :=
  @Build_World ext disk (octal 0 2 2) script noon [].

Definition itemA : Item :=
  {| Title := "A"; Content := ""; Description := "";
     PublishedParsed := Some (hours_ago 1); UpdatedParsed := None |}.

Definition itemB : Item :=
  {| Title := "B"; Content := ""; Description := "";
     PublishedParsed := Some (hours_ago 72); UpdatedParsed := None |}.

(** An item without a publish time. *)
Definition itemN : Item :=
  {| Title := "N"; Content := ""; Description := "";
     PublishedParsed := None; UpdatedParsed := None |}.

(** An item of two chunks, title and content, updated after it was published. *)
Definition itemC : Item :=
  {| Title := "C"; Content := "body"; Description := "";
     PublishedParsed := Some (hours_ago 2); UpdatedParsed := Some (hours_ago 1) |}.

Definition cfg : Config :=
  {| MaxItemPerFeed := 5; ItemSince := 48%float; UseNaturalVoice := false;
     SpeechSpeed := 1%float; ConcurrentWorkers := 1; Feeds := ["http://feed"] |}.

Definition feedAB : Feed :=
  {| Feed_Title := "feed"; Language := "en-US"; Items := [itemA; itemB] |}.

Definition feedANB : Feed :=
  {| Feed_Title := "feed"; Language := "zh-TW"; Items := [itemA; itemN; itemB] |}.

Definition req (item : Item) : WorkerRequest :=
  @request_for cfg "en-US" "/out" item.

Definition boom (n : Z) : bytes + error :=
  inr (RPCError (if n =? 5 then "deadline exceeded" else "unavailable")).

Definition mp3 (s : string) : bytes + error := inl (bytes_of_string s).

(** Four errors, then audio. *)
Definition flaky4 : list (bytes + error) :=
  [boom 1; boom 2; boom 3; boom 4; mp3 "aaa"].

(** Five errors, then audio for whoever calls next. *)
Definition down5 : list (bytes + error) :=
  [boom 1; boom 2; boom 3; boom 4; boom 5; mp3 "bbb"].

(** An item of three chunks, without any timestamp. *)
Definition item3 : Item :=
  {| Title := "T"; Content := "body"; Description := "more";
     PublishedParsed := None; UpdatedParsed := None |}.


(** Audio for the first chunk, five empty payloads, audio for the third. *)
Definition hollow : list (bytes + error) :=
  [mp3 "A"; mp3 ""; mp3 ""; mp3 ""; mp3 ""; mp3 ""; mp3 "C"].

(** A backend that serves two chunks at once. *)
Definition ready : @World ext := boot [mp3 "a"; mp3 "b"].

(** A pool of two workers on a closed channel that holds two requests,
    with a backend that is down for the first of them. *)
Definition pool2 : @Pool ext :=
  {| chan := [req itemA; req itemB]; closed := true;
     workers := [None; None]; world := boot down5 |}.

(** The same with a single worker. *)
Definition pool1 : @Pool ext :=
  {| chan := [req itemA; req itemB]; closed := true;
     workers := [None]; world := boot down5 |}.

(** Two titles that differ after their 25th byte. *)
Definition title1 : string := "Weekly digest of the news, part one".
Definition title2 : string := "Weekly digest of the news, part two".

(** The disk after the older worker has written the artifact of item A. *)
Definition legacy_run : @World ext :=
  (@main_processItem ext (req itemA) (boot [mp3 "old"; mp3 "new"])).2.

(** A disk on which [/cwd/A.mp3] exists and the output directory is empty. *)
Definition stray : @World ext :=
  @Build_World ext (<["/cwd/A.mp3" := directory]> disk) (octal 0 2 2)
    [mp3 "new"] noon [].

(** A feed whose only item is out of the window. *)
Definition feedB : Feed :=
  {| Feed_Title := "old news"; Language := "en-US"; Items := [itemB] |}.

(** Audio for three chunks, and a queue of two requests that need them. *)
Definition stocked : @World ext := boot [mp3 "a"; mp3 "c"; mp3 "b"].

Definition queue2 : Chan := [req itemA; req itemC].

(** An item whose update time is the zero [time.Time], as a feed that dates
    an entry [0001-01-01T00:00:00Z] gives it. *)
Definition itemZ : Item :=
  {| Title := "Z"; Content := ""; Description := "";
     PublishedParsed := Some (hours_ago 1); UpdatedParsed := Some time.zero |}.

(** Four errors, then a response without audio. *)
Definition mute5 : list (bytes + error) :=
  [boom 1; boom 2; boom 3; boom 4; mp3 ""].

(** A configuration whose cap, times its four feeds, is 2^64. *)
Definition cfg_wide : Config :=
  {| MaxItemPerFeed := 2 ^ 62; ItemSince := 48%float; UseNaturalVoice := false;
     SpeechSpeed := 1%float; ConcurrentWorkers := 4;
     Feeds := ["http://a"; "http://b"; "http://c"; "http://d"] |}.

(** Two chunks, each served at the fifth attempt. *)
Definition flaky44 : list (bytes + error) :=
  [boom 1; boom 2; boom 3; boom 4; mp3 "aaa";
   boom 1; boom 2; boom 3; boom 4; mp3 "bbb"].

End Demo.

(* ===================================================================== *)
(** * Theorems *)
(* ===================================================================== *)

Import Worker.

(** Project the fields of a world built by the setters. *)
Ltac world_simpl :=
  unfold log_Printf, emit, set_fs, set_backend, time_Sleep;
  cbn [fs umask backend now trace].

(** ** Language tags *)

Section Language.

Lemma lower_ascii_z (c : ascii) :
  lower_ascii c = "z"%char <-> c = "z"%char \/ c = "Z"%char.
Proof.
  destruct c as [[] [] [] [] [] [] [] []]; vm_compute;
    (split; [intros H; first [discriminate H | now left | now right]
            | intros [H | H]; first [discriminate H | reflexivity]]).
Qed.

Lemma lower_ascii_h (c : ascii) :
  lower_ascii c = "h"%char <-> c = "h"%char \/ c = "H"%char.
Proof.
  destruct c as [[] [] [] [] [] [] [] []]; vm_compute;
    (split; [intros H; first [discriminate H | now left | now right]
            | intros [H | H]; first [discriminate H | reflexivity]]).
Qed.

Lemma HasPrefix_zh (s : string) :
  HasPrefix (ToLower s) "zh" = true <->
  exists c1 c2 r, s = String c1 (String c2 r) /\
    lower_ascii c1 = "z"%char /\ lower_ascii c2 = "h"%char.
Proof.
  destruct s as [|c1 [|c2 r]]; cbn [HasPrefix ToLower].
  - split; [discriminate | intros (? & ? & ? & H & _); discriminate H].
  - destruct (Ascii.eqb_spec "z" (lower_ascii c1));
      (split; [discriminate | intros (? & ? & ? & H & _); discriminate H]).
  - destruct (Ascii.eqb_spec "z" (lower_ascii c1)) as [Hz | Hz];
      [destruct (Ascii.eqb_spec "h" (lower_ascii c2)) as [Hh | Hh] |].
    + split; [intros _; eauto 6 | reflexivity].
    + split; [discriminate |].
      intros (? & ? & ? & H & _ & H2). injection H as -> -> ->. congruence.
    + split; [discriminate |].
      intros (? & ? & ? & H & H1 & _). injection H as -> -> ->. congruence.
Qed.

Lemma Contains_cons (c : ascii) (s p : string) :
  Contains (String c s) p = HasPrefix (String c s) p || Contains s p.
Proof. reflexivity. Qed.

Lemma Contains_zh (lang : string) :
  Contains (ToLower lang) "zh" = true <-> contains_zh lang.
Proof.
  unfold contains_zh. induction lang as [|c lang IH].
  - cbn. split; [discriminate |].
    intros ([|? ?] & ? & ? & ? & H & _); discriminate H.
  - change (ToLower (String c lang)) with (String (lower_ascii c) (ToLower lang)).
    rewrite Contains_cons.
    change (String (lower_ascii c) (ToLower lang)) with (ToLower (String c lang)).
    rewrite orb_true_iff, HasPrefix_zh, IH. split.
    + intros [(c1 & c2 & r & Heq & H1 & H2) | (pre & post & c1 & c2 & Heq & H1 & H2)].
      * exists EmptyString, r, c1, c2.
        apply lower_ascii_z in H1. apply lower_ascii_h in H2. auto.
      * exists (String c pre), post, c1, c2. rewrite Heq. auto.
    + intros ([|c0 pre] & post & c1 & c2 & Heq & H1 & H2); cbn in Heq.
      * left. exists c1, c2, post.
        rewrite lower_ascii_z, lower_ascii_h. auto.
      * right. injection Heq as -> ->. eauto 8.
Qed.

Lemma feedLanguage_zh (lang : string) :
  contains_zh lang -> feedLanguage lang = "cmn-CN".
Proof.
  intros H. apply Contains_zh in H. unfold feedLanguage. now rewrite H.
Qed.

Lemma feedLanguage_other (lang : string) :
  ~ contains_zh lang -> feedLanguage lang = lang.
Proof.
  intros H. unfold feedLanguage.
  destruct (Contains (ToLower lang) "zh") eqn:E; [|reflexivity].
  apply Contains_zh in E. contradiction.
Qed.

End Language.

(** ** The retry loop *)

Section Retry.

Context `{Ext : Externals}.

Lemma new_events_app (w w1 : World) (evs : list Event) :
  trace w1 = trace w ++ evs -> new_events w w1 = evs.
Proof. intros H. unfold new_events. rewrite H. apply drop_app_length. Qed.

Lemma payloads_app (l1 l2 : list Event) :
  payloads (l1 ++ l2) = payloads l1 ++ payloads l2.
Proof.
  induction l1 as [|e l1 IH]; [reflexivity|].
  destruct e as [| |ssr [a|e]| | | |]; cbn [payloads app]; try exact IH.
  destruct (0 <? Z.of_nat (length a)); [cbn; now f_equal | exact IH].
Qed.

(** What a call does to the world. *)
Lemma call_backend_spec (ssr : SSR) (w w2 : World) (r : bytes + error) :
  call_backend ssr w = (r, w2) ->
  SynthesizeSpeech (backend w) ssr = (backend w2, r) /\
  fs w2 = fs w /\ umask w2 = umask w /\ now w2 = now w /\
  trace w2 = trace w ++ [EvCall ssr r].
Proof.
  unfold call_backend. destruct (SynthesizeSpeech (backend w) ssr) as [b r0].
  intros [= <- <-]. now cbn.
Qed.

(** The pause before a retry: a log line and a sleep, or nothing. *)
Lemma pause_spec (i : Z) (err : option error) (w : World) :
  backend (pause i err w) = backend w /\ fs (pause i err w) = fs w /\
  umask (pause i err w) = umask w /\
  trace (pause i err w) = trace w ++
    (if 0 <? i then [EvLog (LogRetry err i); EvSleep time.Second] else []).
Proof.
  unfold pause. destruct (0 <? i); cbn.
  - now rewrite <- app_assoc.
  - now rewrite app_nil_r.
Qed.

Lemma pause_now (i : Z) (err : option error) (w : World) :
  now (pause i err w) = now w + (if 0 <? i then time.Second else 0).
Proof. unfold pause. destruct (0 <? i); cbn; lia. Qed.

(** One step of the loop, as the source reads. *)
Lemma retry_step (left : nat) (i : Z) (ssr : SSR) (err : option error)
    (audio : bytes) (w w2 : World) (r : bytes + error) :
  call_backend ssr (pause i err w) = (r, w2) ->
  retry (S left) i ssr err audio w =
    match r with
    | inr e => retry left (i + 1) ssr (Some e) audio (log_Printf (LogBackendError e) w2)
    | inl content =>
        if 0 <? Z.of_nat (length content) then (None, audio ++ content, w2)
        else retry left (i + 1) ssr None audio w2
    end.
Proof. intros H. cbn [retry]. now rewrite H. Qed.

(** The loop never touches the file system, and writes no file. *)
Lemma retry_quiet (ssr : SSR) (left : nat) :
  forall i err audio w,
    let w1 := (retry left i ssr err audio w).2 in
    fs w1 = fs w /\ umask w1 = umask w /\
    exists evs, trace w1 = trace w ++ evs /\ Forall (fun e => is_write e = false) evs.
Proof.
  induction left as [|left IH]; intros i err audio w; cbn zeta.
  - cbn. repeat split. exists []. now rewrite app_nil_r.
  - destruct (call_backend ssr (pause i err w)) as [r w2] eqn:Hc.
    rewrite (retry_step _ _ _ _ _ _ _ _ Hc).
    apply call_backend_spec in Hc as (_ & Hfs & Hum & _ & Htr).
    destruct (pause_spec i err w) as (_ & Pfs & Pum & Ptr).
    assert (Hpre : exists evs, trace w2 = trace w ++ evs /\
                     Forall (fun e => is_write e = false) evs).
    { eexists. split.
      - rewrite Htr, Ptr, <- app_assoc. reflexivity.
      - destruct (0 <? i); repeat constructor. }
    destruct Hpre as (pre & Hpre & Hq).
    destruct r as [content|e].
    + destruct (0 <? Z.of_nat (length content)).
      * cbn. repeat split; try congruence. eauto.
      * specialize (IH (i + 1) None audio w2). cbn zeta in IH.
        destruct IH as (-> & -> & evs & -> & Hev).
        repeat split; try congruence.
        exists (pre ++ evs). rewrite Hpre, <- app_assoc. split; [reflexivity|].
        now apply Forall_app.
    + specialize (IH (i + 1) (Some e) audio (log_Printf (LogBackendError e) w2)).
      cbn zeta in IH. destruct IH as (-> & -> & evs & -> & Hev).
      cbn. repeat split; try congruence.
      exists (pre ++ [EvLog (LogBackendError e)] ++ evs).
      rewrite Hpre, <- !app_assoc. split; [reflexivity|].
      apply Forall_app. split; [assumption|]. now constructor.
Qed.

(** From the second attempt on: every further attempt is announced, waits
    one second and calls; at most [left] more attempts are made. *)
Lemma retry_attempts (ssr : SSR) (left : nat) :
  forall (n : nat) err audio w evs0,
    (1 <= n)%nat ->
    attempts ssr n evs0 ->
    let w1 := (retry left (Z.of_nat n) ssr err audio w).2 in
    exists (m : nat) (evs : list Event),
      (n <= m <= n + left)%nat /\ attempts ssr m (evs0 ++ evs) /\
      trace w1 = trace w ++ evs /\
      now w1 = now w + (Z.of_nat m - Z.of_nat n) * time.Second.
Proof.
  induction left as [|left IH]; intros n err audio w evs0 Hn Hat; cbn zeta.
  - exists n, []. cbn. rewrite !app_nil_r. repeat split; try lia. assumption.
  - destruct (call_backend ssr (pause (Z.of_nat n) err w)) as [r w2] eqn:Hc.
    rewrite (retry_step _ _ _ _ _ _ _ _ Hc).
    apply call_backend_spec in Hc as (_ & _ & _ & Hnow & Htr).
    destruct (pause_spec (Z.of_nat n) err w) as (_ & _ & _ & Ptr).
    pose proof (pause_now (Z.of_nat n) err w) as Pnow.
    assert (Hpos : (0 <? Z.of_nat n) = true) by (apply Z.ltb_lt; lia).
    rewrite Hpos in Ptr, Pnow.
    pose proof (attempts_retry ssr n evs0 err r Hat) as Hat1.
    replace (Z.of_nat n + 1) with (Z.of_nat (S n)) by lia.
    destruct r as [content|e].
    + destruct (0 <? Z.of_nat (length content)).
      * exists (S n). eexists. cbn [snd]. split; [lia|]. split; [exact Hat1|].
        split.
        -- rewrite Htr, Ptr, <- app_assoc. reflexivity.
        -- rewrite Hnow, Pnow. lia.
      * destruct (IH (S n) None audio w2 _ ltac:(lia) Hat1)
          as (m & evs & Hm & Hatm & Htrm & Hnowm).
        exists m. eexists. split; [lia|]. split; [|split].
        -- rewrite <- app_assoc in Hatm. exact Hatm.
        -- rewrite Htrm, Htr, Ptr, <- !app_assoc. reflexivity.
        -- rewrite Hnowm, Hnow, Pnow. lia.
    + destruct (IH (S n) (Some e) audio (log_Printf (LogBackendError e) w2) _
                  ltac:(lia) Hat1) as (m & evs & Hm & Hatm & Htrm & Hnowm).
      exists m. eexists. split; [lia|]. split; [|split].
      -- rewrite <- app_assoc in Hatm. exact Hatm.
      -- rewrite Htrm. cbn [log_Printf emit trace]. rewrite Htr, Ptr.
         cbn [call_events]. rewrite <- !app_assoc. reflexivity.
      -- rewrite Hnowm. cbn [log_Printf emit now]. rewrite Hnow, Pnow. lia.
Qed.

(** The loop of one chunk makes between one and five attempts. *)
Lemma synthesizeChunk_attempts (ssr : SSR) (audio : bytes) (w : World) :
  let w1 := (synthesizeChunk ssr audio w).2 in
  exists (m : nat) (evs : list Event),
    (1 <= m <= 5)%nat /\ attempts ssr m evs /\
    trace w1 = trace w ++ evs /\
    now w1 = now w + (Z.of_nat m - 1) * time.Second.
Proof.
  cbn zeta. unfold synthesizeChunk.
  change (Z.to_nat SPEECH_SYNTHESIZE_RETRY_CNT) with 5%nat.
  destruct (call_backend ssr (pause 0 None w)) as [r w2] eqn:Hc.
  rewrite (retry_step _ _ _ _ _ _ _ _ Hc).
  apply call_backend_spec in Hc as (_ & _ & _ & Hnow & Htr).
  destruct (pause_spec 0 None w) as (_ & _ & _ & Ptr).
  pose proof (pause_now 0 None w) as Pnow.
  change (0 <? 0) with false in Ptr, Pnow. rewrite app_nil_r in Ptr.
  pose proof (attempts_first ssr r) as Hat1.
  change (0 + 1) with (Z.of_nat 1).
  destruct r as [content|e].
  - destruct (0 <? Z.of_nat (length content)).
    + exists 1%nat. eexists. cbn [snd]. split; [lia|]. split; [exact Hat1|].
      split; [rewrite Htr, Ptr; reflexivity | rewrite Hnow, Pnow; lia].
    + destruct (retry_attempts ssr 4 1 None audio w2 _ ltac:(lia) Hat1)
        as (m & evs & Hm & Hatm & Htrm & Hnowm).
      exists m. eexists. split; [lia|]. split; [exact Hatm|]. split.
      * rewrite Htrm, Htr, Ptr, <- app_assoc. reflexivity.
      * rewrite Hnowm, Hnow, Pnow. lia.
  - destruct (retry_attempts ssr 4 1 (Some e) audio
                (log_Printf (LogBackendError e) w2) _ ltac:(lia) Hat1)
      as (m & evs & Hm & Hatm & Htrm & Hnowm).
    exists m. eexists. split; [lia|]. split; [exact Hatm|]. split.
    + rewrite Htrm. cbn [log_Printf emit trace]. rewrite Htr, Ptr.
      cbn [call_events]. rewrite <- !app_assoc. reflexivity.
    + rewrite Hnowm. cbn [log_Printf emit now]. rewrite Hnow, Pnow. lia.
Qed.

Lemma payloads_pause (i : Z) (err : option error) :
  payloads (if 0 <? i then [EvLog (LogRetry err i); EvSleep time.Second] else []) = [].
Proof. now destruct (0 <? i). Qed.

(** A chunk that fails [k] times and is then served [a] gets [a] appended,
    provided the loop has more than [k] iterations left. *)
Lemma retry_served (ssr : SSR) (k : nat) :
  forall left i err audio w rs b1 b2 a,
    replies k ssr (backend w) = (rs, b1) ->
    forallb is_failure rs = true ->
    SynthesizeSpeech b1 ssr = (b2, inl a) ->
    (0 <? Z.of_nat (length a)) = true ->
    (k < left)%nat ->
    exists w1 evs,
      retry left i ssr err audio w = (None, audio ++ a, w1) /\
      backend w1 = b2 /\ trace w1 = trace w ++ evs /\ payloads evs = [a].
Proof.
  induction k as [|k IH]; intros left i err audio w rs b1 b2 a Hrep Hfail Hok Hne Hlt;
    (destruct left as [|left]; [lia|]);
    destruct (call_backend ssr (pause i err w)) as [r w2] eqn:Hc;
    rewrite (retry_step _ _ _ _ _ _ _ _ Hc);
    apply call_backend_spec in Hc as (Hb & _ & _ & _ & Htr);
    destruct (pause_spec i err w) as (Pb & _ & _ & Ptr);
    rewrite Pb in Hb; rewrite Ptr in Htr.
  - cbn in Hrep. injection Hrep as <- <-.
    rewrite Hok in Hb. injection Hb as Hb2 <-. rewrite Hne.
    exists w2. eexists. repeat split.
    + now symmetry.
    + rewrite Htr, <- app_assoc. reflexivity.
    + rewrite payloads_app, payloads_pause. cbn. now rewrite Hne.
  - cbn [replies] in Hrep. rewrite Hb in Hrep. cbv beta iota in Hrep.
    destruct (replies k ssr (backend w2)) as [rs1 b3] eqn:Hrep1.
    injection Hrep as <- <-.
    cbn [forallb] in Hfail. apply andb_prop in Hfail as [Hr Hfail].
    destruct r as [content|e].
    + cbn in Hr. apply negb_true_iff in Hr. rewrite Hr.
      destruct (IH left (i + 1) None audio w2 rs1 b3 b2 a Hrep1 Hfail Hok Hne
                  ltac:(lia)) as (w1 & evs & -> & Hb1 & Htr1 & Hp).
      exists w1. eexists. repeat split; [assumption| |].
      * rewrite Htr1, Htr, <- !app_assoc. reflexivity.
      * rewrite !payloads_app, payloads_pause, Hp. cbn. now rewrite Hr.
    + destruct (IH left (i + 1) (Some e) audio (log_Printf (LogBackendError e) w2)
                  rs1 b3 b2 a Hrep1 Hfail Hok Hne ltac:(lia))
        as (w1 & evs & -> & Hb1 & Htr1 & Hp).
      exists w1. eexists. repeat split; [assumption| |].
      * rewrite Htr1. cbn [log_Printf emit trace]. rewrite Htr, <- !app_assoc.
        reflexivity.
      * rewrite !payloads_app, payloads_pause, Hp. reflexivity.
Qed.

Lemma is_error_failure (rs : list (bytes + error)) :
  forallb is_error rs = true -> forallb is_failure rs = true.
Proof.
  induction rs as [|[a|e] rs IH]; cbn; [reflexivity | discriminate | exact IH].
Qed.

(** A chunk for which every remaining attempt fails: the loop runs to its
    end and appends nothing; what it reports is decided by the last attempt
    alone, its error if it erred and no error if it returned an empty
    payload. *)
Lemma retry_failures (ssr : SSR) (left : nat) :
  forall i err audio w rs b1,
    replies left ssr (backend w) = (rs, b1) ->
    forallb is_failure rs = true ->
    exists w1,
      retry left i ssr err audio w =
        (match last rs with
         | Some (inr e) => Some e
         | Some (inl _) => None
         | None => err
         end, audio, w1) /\
      backend w1 = b1.
Proof.
  induction left as [|left IH]; intros i err audio w rs b1 Hrep Hfail.
  - cbn in Hrep. injection Hrep as <- <-. exists w. now cbn.
  - destruct (call_backend ssr (pause i err w)) as [r w2] eqn:Hc.
    rewrite (retry_step _ _ _ _ _ _ _ _ Hc).
    apply call_backend_spec in Hc as (Hb & _).
    destruct (pause_spec i err w) as (Pb & _). rewrite Pb in Hb.
    cbn [replies] in Hrep. rewrite Hb in Hrep. cbv beta iota in Hrep.
    destruct (replies left ssr (backend w2)) as [rs1 b3] eqn:Hrep1.
    injection Hrep as <- <-.
    cbn [forallb] in Hfail. apply andb_prop in Hfail as [Hr Hfail].
    rewrite last_cons. destruct r as [content|e].
    + cbn in Hr. apply negb_true_iff in Hr. rewrite Hr.
      destruct (IH (i + 1) None audio w2 rs1 b3 Hrep1 Hfail) as (w1 & -> & Hb1).
      exists w1. split; [|assumption]. now destruct (last rs1) as [[?|?]|].
    + destruct (IH (i + 1) (Some e) audio (log_Printf (LogBackendError e) w2)
                  rs1 b3 Hrep1 Hfail) as (w1 & -> & Hb1).
      exists w1. split; [|assumption]. now destruct (last rs1) as [[?|?]|].
Qed.

(** The synthesis phase never touches the file system, and writes no file. *)
Lemma synthesizeAll_quiet (ssrs : list SSR) :
  forall audio w,
    let w1 := (synthesizeAll ssrs audio w).2 in
    fs w1 = fs w /\ umask w1 = umask w /\
    exists evs, trace w1 = trace w ++ evs /\ Forall (fun e => is_write e = false) evs.
Proof.
  induction ssrs as [|ssr ssrs IH]; intros audio w; cbn zeta.
  - cbn. repeat split. exists []. now rewrite app_nil_r.
  - cbn [synthesizeAll]. unfold synthesizeChunk.
    pose proof (retry_quiet ssr (Z.to_nat SPEECH_SYNTHESIZE_RETRY_CNT) 0 None audio w) as Hq.
    cbn zeta in Hq.
    destruct (retry (Z.to_nat SPEECH_SYNTHESIZE_RETRY_CNT) 0 ssr None audio w)
      as [[err audio1] w1].
    cbn [snd] in Hq. destruct Hq as (Hfs & Hum & evs & Htr & Hev).
    destruct err as [e|].
    + cbn. repeat split; try assumption. eauto.
    + specialize (IH audio1 w1). cbn zeta in IH.
      destruct IH as (-> & -> & evs1 & -> & Hev1).
      repeat split; try assumption.
      exists (evs ++ evs1). rewrite Htr, <- app_assoc. split; [reflexivity|].
      now apply Forall_app.
Qed.

(** Chunks that are all served within the bound: the synthesis phase ends
    without error, with the payloads appended in chunk order. *)
Lemma synthesizeAll_served (ks : list nat) :
  forall ssrs audio w Bs b1,
    served ks ssrs (backend w) = Some (Bs, b1) ->
    Forall (fun k => (k < 5)%nat) ks ->
    exists w1 evs,
      synthesizeAll ssrs audio w = (inl (audio ++ concat Bs), w1) /\
      backend w1 = b1 /\ trace w1 = trace w ++ evs /\ payloads evs = Bs.
Proof.
  induction ks as [|k ks IH]; intros ssrs audio w Bs b1 Hs Hk;
    destruct ssrs as [|ssr ssrs]; cbn [served] in Hs; try discriminate Hs.
  - injection Hs as <- <-. exists w, []. cbn. now rewrite !app_nil_r.
  - destruct (replies k ssr (backend w)) as [rs b2] eqn:Hrep.
    destruct (forallb is_failure rs) eqn:Hfail; [|discriminate Hs].
    destruct (SynthesizeSpeech b2 ssr) as [b3 [a|e]] eqn:Hok; [|discriminate Hs].
    destruct (0 <? Z.of_nat (length a)) eqn:Hne; [|discriminate Hs].
    destruct (served ks ssrs b3) as [[Bs1 b4]|] eqn:Hs1; [|discriminate Hs].
    injection Hs as <- <-.
    apply Forall_cons in Hk as [Hk5 Hk].
    destruct (retry_served ssr k 5 0 None audio w rs b2 b3 a Hrep Hfail Hok Hne Hk5)
      as (w1 & evs & Hret & Hb1 & Htr & Hp).
    cbn [synthesizeAll]. unfold synthesizeChunk.
    change (Z.to_nat SPEECH_SYNTHESIZE_RETRY_CNT) with 5%nat. rewrite Hret.
    rewrite <- Hb1 in Hs1.
    destruct (IH ssrs (audio ++ a) w1 Bs1 b4 Hs1 Hk) as (w2 & evs1 & -> & Hb2 & Htr1 & Hp1).
    exists w2, (evs ++ evs1). repeat split.
    + cbn [concat]. now rewrite app_assoc.
    + assumption.
    + rewrite Htr1, Htr, <- app_assoc. reflexivity.
    + rewrite payloads_app, Hp, Hp1. reflexivity.
Qed.

(** Chunks served within the bound, then a chunk whose five attempts all
    err: the synthesis phase ends with the error of the fifth attempt. *)
Lemma synthesizeAll_exhausted (ks : list nat) :
  forall pre ssr post audio w Bs b1 rs b2,
    served ks pre (backend w) = Some (Bs, b1) ->
    Forall (fun k => (k < 5)%nat) ks ->
    replies 5 ssr b1 = (rs, b2) ->
    forallb is_error rs = true ->
    exists e w1,
      last rs = Some (inr e) /\
      synthesizeAll (pre ++ ssr :: post) audio w = (inr e, w1).
Proof.
  induction ks as [|k ks IH]; intros pre ssr post audio w Bs b1 rs b2 Hs Hk Hrep Herr;
    destruct pre as [|p pre]; cbn [served] in Hs; try discriminate Hs.
  - injection Hs as <- <-.
    destruct (retry_failures ssr 5 0 None audio w rs b2 Hrep (is_error_failure _ Herr))
      as (w1 & Hret & _).
    assert (Hlast : exists e, last rs = Some (inr e)).
    { cbn [replies] in Hrep.
      repeat match type of Hrep with
             | context [SynthesizeSpeech ?b ?s] => destruct (SynthesizeSpeech b s) as [? ?]
             end.
      injection Hrep as <- <-. cbn in Herr |- *.
      repeat match type of Herr with
             | context [is_error ?r] => destruct r; cbn in Herr; try discriminate Herr
             end.
      eauto. }
    destruct Hlast as (e & Hl). rewrite Hl in Hret.
    exists e, w1. split; [assumption|].
    cbn [app synthesizeAll]. unfold synthesizeChunk.
    change (Z.to_nat SPEECH_SYNTHESIZE_RETRY_CNT) with 5%nat. now rewrite Hret.
  - destruct (replies k p (backend w)) as [rs0 b3] eqn:Hrep0.
    destruct (forallb is_failure rs0) eqn:Hfail; [|discriminate Hs].
    destruct (SynthesizeSpeech b3 p) as [b4 [a|e0]] eqn:Hok; [|discriminate Hs].
    destruct (0 <? Z.of_nat (length a)) eqn:Hne; [|discriminate Hs].
    destruct (served ks pre b4) as [[Bs1 b5]|] eqn:Hs1; [|discriminate Hs].
    injection Hs as <- <-.
    apply Forall_cons in Hk as [Hk5 Hk].
    destruct (retry_served p k 5 0 None audio w rs0 b3 b4 a Hrep0 Hfail Hok Hne Hk5)
      as (w1 & evs & Hret & Hb1 & _).
    rewrite <- Hb1 in Hs1.
    destruct (IH pre ssr post (audio ++ a) w1 Bs1 b5 rs b2 Hs1 Hk Hrep Herr)
      as (e & w2 & Hl & Hall).
    exists e, w2. split; [assumption|].
    cbn [app synthesizeAll]. unfold synthesizeChunk.
    change (Z.to_nat SPEECH_SYNTHESIZE_RETRY_CNT) with 5%nat. now rewrite Hret.
Qed.

End Retry.

(** ** One request through the remote worker *)

Section Item.

Context `{Ext : Externals}.

(** The gate skips exactly when one of the two paths exists, and logs the
    first of them that does: the legacy one before the hashed one. *)
Lemma shouldSkip_spec (legacy path : string) (w : World) :
  exists w1,
    shouldSkip legacy path w =
      (os.Stat (fs w) legacy || os.Stat (fs w) path, w1) /\
    fs w1 = fs w /\ umask w1 = umask w /\ backend w1 = backend w /\ now w1 = now w /\
    trace w1 = trace w ++
      (if os.Stat (fs w) legacy then [EvLog (LogFileExists legacy)]
       else if os.Stat (fs w) path then [EvLog (LogFileExists path)]
       else []).
Proof.
  unfold shouldSkip, fileExistsAndLog.
  destruct (os.Stat (fs w) legacy) eqn:E1; cbn.
  - eexists. repeat split.
  - destruct (os.Stat (fs w) path) eqn:E2; eexists; repeat split; cbn.
    now rewrite app_nil_r.
Qed.

Lemma processItem_open (workerItem : WorkerRequest) (w : World) :
  gate_open workerItem ".mp3" w ->
  processItem workerItem w =
    match synthesizeAll (speechRequests_of workerItem) []
            (log_Printf (LogStart (Title (WR_Item workerItem))) w) with
    | (inr e, w2) => (Return e, w2)
    | (inl audioContent, w2) =>
        writeArtifact workerItem (artifact workerItem) audioContent w2
    end.
Proof.
  intros [Hl Hp]. unfold processItem, shouldSkip, fileExistsAndLog.
  cbn [log_Printf emit fs]. rewrite Hl. cbn [log_Printf emit fs]. rewrite Hp.
  reflexivity.
Qed.

(** A successful [os.WriteFile] leaves a regular file with the bytes given. *)
Lemma os_WriteFile_ok (path : string) (d : bytes) (perm : Z) (w w1 : World) :
  os_WriteFile path d perm w = (None, w1) ->
  (exists f, fs w1 !! path = Some f /\ os.isdir f = false /\ os.data f = d /\
     (fs w !! path = None -> os.mode f = Z.land perm (Z.lnot (umask w)))) /\
  umask w1 = umask w /\ now w1 = now w /\ backend w1 = backend w /\
  trace w1 = trace w ++ [EvWriteFile path d perm None].
Proof.
  unfold os_WriteFile, os.WriteFile.
  destruct (fs w !! path) as [f|] eqn:E.
  - destruct (os.isdir f); intros [= <-]; cbn.
    repeat split. eexists. rewrite lookup_insert_eq. repeat split. discriminate.
  - destruct (os.is_directory (fs w) (os.parent path)); intros [= <-]; cbn.
    repeat split. eexists. rewrite lookup_insert_eq. repeat split.
Qed.

(** [os.WriteFile] succeeds on a new name in an existing directory. *)
Lemma os_WriteFile_fresh (path : string) (d : bytes) (perm : Z) (w : World) :
  os.Stat (fs w) path = false ->
  os.is_directory (fs w) (os.parent path) = true ->
  exists w1, os_WriteFile path d perm w = (None, w1).
Proof.
  unfold os.Stat, os_WriteFile, os.WriteFile. intros Hs Hd.
  destruct (fs w !! path); [discriminate|]. rewrite Hd. eauto.
Qed.

(** A failed [os.WriteFile] leaves the file system as it was. *)
Lemma os_WriteFile_err (path : string) (d : bytes) (perm : Z) (w w1 : World)
    (e : error) :
  os_WriteFile path d perm w = (Some e, w1) ->
  fs w1 = fs w /\ trace w1 = trace w ++ [EvWriteFile path d perm (Some e)].
Proof.
  unfold os_WriteFile.
  destruct (os.WriteFile (umask w) (now w) (fs w) path d perm); intros [= <- <-];
    now cbn.
Qed.

(** What [os.Chtimes] makes of a time: a representable instant is passed on
    as it is, the zero time leaves the file's time alone. *)
Lemma utime_representable (old : Z) (t : time.Time) :
  time.representable t -> os.utime old t = t.
Proof.
  unfold time.representable, os.utime, time.IsZero, time.UnixNano, wrap64,
    time.zero.
  intros H. destruct (Z.eqb_spec t (-62135596800 * 1000000000)) as [E|_]; [lia|].
  rewrite Z.mod_small by lia. lia.
Qed.

Lemma utime_zero (old : Z) : os.utime old time.zero = old.
Proof. reflexivity. Qed.

(** The stamp: [os.Chtimes] with the item's time for both times. *)
Lemma stamp_spec (item : Item) (path : string) (w : World) :
  let t := fileTime item (now w) in
  match fs w !! path with
  | Some f =>
      exists w1, stamp item path w = (Next, w1) /\ now w1 = now w /\
        fs w1 = <[path := {| os.isdir := os.isdir f; os.data := os.data f;
                             os.mode := os.mode f;
                             os.atime := os.utime (os.atime f) t;
                             os.mtime := os.utime (os.mtime f) t |}]> (fs w) /\
        trace w1 = trace w ++ [EvChtimes path t t None;
                               EvLog (LogFinished (Title item) path)]
  | None =>
      exists e w1, stamp item path w = (Return e, w1) /\ fs w1 = fs w /\
        trace w1 = trace w ++ [EvChtimes path t t (Some e);
                               EvLog (LogChtimesError e)]
  end.
Proof.
  cbn zeta. unfold stamp, os_Chtimes, os.Chtimes.
  destruct (fs w !! path) as [f|]; cbn.
  - eexists. repeat split. world_simpl. now rewrite <- app_assoc.
  - do 2 eexists. repeat split. world_simpl. now rewrite <- app_assoc.
Qed.

(** A stamp that goes through has handed the item's time to [os.Chtimes] for
    both times of the artifact. *)
Lemma stamp_Next (item : Item) (path : string) (w w1 : World) :
  stamp item path w = (Next, w1) ->
  now w1 = now w /\
  exists f0 f, fs w !! path = Some f0 /\ fs w1 !! path = Some f /\
    os.mtime f = os.utime (os.mtime f0) (fileTime item (now w)) /\
    os.atime f = os.utime (os.atime f0) (fileTime item (now w)).
Proof.
  intros H. pose proof (stamp_spec item path w) as S. cbn zeta in S.
  destruct (fs w !! path) as [f|].
  - destruct S as (w2 & S & Hnow & Hfs & _). rewrite S in H. injection H as <-.
    split; [assumption|]. exists f. eexists.
    rewrite Hfs, lookup_insert_eq. repeat split.
  - destruct S as (e & w2 & S & _). rewrite S in H. discriminate H.
Qed.

(** From the write on: one write event, then neither a write nor a call. *)
Lemma writeArtifact_trace (workerItem : WorkerRequest) (path : string)
    (audio : bytes) (w : World) :
  exists r after,
    trace (writeArtifact workerItem path audio w).2 =
      trace w ++ EvWriteFile path audio (octal 7 5 5) r :: after /\
    Forall (fun e => is_write e = false /\ is_call e = false) after /\
    (forall e, r = Some e ->
       (writeArtifact workerItem path audio w).1 = Return e /\
       fs (writeArtifact workerItem path audio w).2 = fs w).
Proof.
  unfold writeArtifact.
  destruct (os_WriteFile path audio (octal 7 5 5) w) as [[e|] w1] eqn:Hw.
  - apply os_WriteFile_err in Hw as [Hfs Htr].
    exists (Some e), [EvLog (LogWriteError e)]. cbn [fst snd]. world_simpl.
    rewrite Htr, <- app_assoc. split; [reflexivity|]. split.
    + repeat constructor.
    + intros e0 [= <-]. split; [reflexivity | assumption].
  - apply os_WriteFile_ok in Hw as (_ & _ & _ & _ & Htr).
    set (w2 := tool_WriteID3Tag _ _ _ w1).
    assert (Htr2 : trace w2 = trace w ++
              [EvWriteFile path audio (octal 7 5 5) None;
               EvTag path (Title (WR_Item workerItem)) (WR_Directory workerItem)]).
    { unfold w2, tool_WriteID3Tag. world_simpl. rewrite Htr, <- app_assoc. reflexivity. }
    pose proof (stamp_spec (WR_Item workerItem) path w2) as S. cbn zeta in S.
    destruct (fs w2 !! path) as [f|].
    + destruct S as (w3 & -> & _ & _ & Htr3).
      exists None. eexists. cbn [snd]. rewrite Htr3, Htr2, <- app_assoc. cbn [app].
      split; [reflexivity|]. split; [repeat constructor | discriminate].
    + destruct S as (e & w3 & -> & _ & Htr3).
      exists None. eexists. cbn [snd]. rewrite Htr3, Htr2, <- app_assoc. cbn [app].
      split; [reflexivity|]. split; [repeat constructor | discriminate].
Qed.

(** The write and the stamp go through on a new name in an existing
    directory, when the tagger leaves the file in place. *)
Lemma writeArtifact_ok (workerItem : WorkerRequest) (path : string)
    (audio : bytes) (w : World) :
  os.Stat (fs w) path = false ->
  os.is_directory (fs w) (os.parent path) = true ->
  tag_keeps path (Title (WR_Item workerItem)) (WR_Directory workerItem) ->
  exists w1, writeArtifact workerItem path audio w = (Next, w1).
Proof.
  intros Hs Hd Hk. unfold writeArtifact.
  destruct (os_WriteFile_fresh path audio (octal 7 5 5) w Hs Hd) as (w1 & Hw).
  rewrite Hw. apply os_WriteFile_ok in Hw as ((f & Hf & _) & _).
  set (w2 := tool_WriteID3Tag _ _ _ w1).
  assert (Hst : os.Stat (fs w2) path = true).
  { unfold w2, tool_WriteID3Tag. world_simpl. apply Hk. unfold os.Stat. now rewrite Hf. }
  pose proof (stamp_spec (WR_Item workerItem) path w2) as S. cbn zeta in S.
  unfold os.Stat in Hst. destruct (fs w2 !! path); [|discriminate].
  destruct S as (w3 & -> & _). eauto.
Qed.

Lemma filter_no_write (evs : list Event) :
  Forall (fun e => is_write e = false) evs -> List.filter is_write evs = [].
Proof.
  induction 1 as [|e evs He _ IH]; [reflexivity|].
  cbn [List.filter]. now rewrite He.
Qed.

(** The writes of one pass of the remote worker: none, or a single
    [os.WriteFile] at the artifact path with permission [0o755]. *)
Lemma processItem_writes (workerItem : WorkerRequest) (w : World) :
  let writes := List.filter is_write (new_events w (processItem workerItem w).2) in
  writes = [] \/
  exists d r, writes = [EvWriteFile (artifact workerItem) d (octal 7 5 5) r].
Proof.
  cbn zeta. unfold processItem.
  set (w0 := log_Printf (LogStart (Title (WR_Item workerItem))) w).
  set (path := filePath _ _ _). set (legacy := legacyFilePath _).
  destruct (shouldSkip_spec legacy path w0) as (w1 & -> & _ & _ & _ & _ & Htr1).
  set (seen := if os.Stat (fs w0) legacy then [EvLog (LogFileExists legacy)]
               else if os.Stat (fs w0) path then [EvLog (LogFileExists path)]
               else []) in Htr1.
  assert (Hseen : Forall (fun e => is_write e = false) seen).
  { unfold seen. destruct (os.Stat (fs w0) legacy); [repeat constructor|].
    destruct (os.Stat (fs w0) path); repeat constructor. }
  assert (Htr0 : trace w1 = trace w ++ EvLog (LogStart (Title (WR_Item workerItem))) :: seen).
  { rewrite Htr1. unfold w0. world_simpl. now rewrite <- app_assoc. }
  destruct (os.Stat (fs w0) legacy || os.Stat (fs w0) path).
  - left. cbn [snd]. rewrite (new_events_app _ _ _ Htr0).
    apply filter_no_write. now constructor.
  - pose proof (synthesizeAll_quiet
                  (GetSynthesizeSpeechRequests (WR_Item workerItem)
                     (WR_LanguageCode workerItem) (WR_UseNaturalVoice workerItem)
                     (WR_SpeechSpeed workerItem)) [] w1) as Hq.
    cbn zeta in Hq.
    destruct (synthesizeAll _ [] w1) as [[audio|e] w2]; cbn [snd] in Hq |- *;
      destruct Hq as (_ & _ & evs & Htr2 & Hev).
    + right.
      destruct (writeArtifact_trace workerItem path audio w2) as (r & after & Htr3 & Haft & _).
      exists audio, r.
      rewrite (new_events_app w _
                 ((EvLog (LogStart (Title (WR_Item workerItem))) :: seen ++ evs)
                  ++ EvWriteFile path audio (octal 7 5 5) r :: after)).
      * rewrite List.filter_app, filter_no_write.
        -- cbn [app List.filter is_write]. f_equal. apply filter_no_write.
           eapply Forall_impl; [exact Haft | now intros ? [? _]].
        -- constructor; [reflexivity|]. now apply Forall_app.
      * rewrite Htr3, Htr2, Htr0. cbn [app]. now rewrite <- !app_assoc.
    + left.
      rewrite (new_events_app w _
                 (EvLog (LogStart (Title (WR_Item workerItem))) :: seen ++ evs)).
      * apply filter_no_write. constructor; [reflexivity|]. now apply Forall_app.
      * rewrite Htr2, Htr0. now rewrite <- !app_assoc.
Qed.

(** The retry loop.  In the remote path every chunk gets between one and
    five backend calls, each call after the first preceded by a sleep of one
    second.  When every chunk of an item fails at most four times (errors or
    empty payloads) before it is served, the item ends without an error;
    when the five calls for some chunk all return an error, the item ends
    with the error of the fifth call, the file system is as it was and no
    file exists at the artifact path. *)
Theorem retry_loop_bounds (workerItem : WorkerRequest) (w : World) :
  let ssrs := speechRequests_of workerItem in
  let path := artifact workerItem in
  (forall ssr audio w0,
     exists (m : nat) (evs : list Event),
       (1 <= m <= 5)%nat /\ attempts ssr m evs /\
       trace (synthesizeChunk ssr audio w0).2 = trace w0 ++ evs /\
       now (synthesizeChunk ssr audio w0).2 = now w0 + (Z.of_nat m - 1) * time.Second) /\
  (forall ks Bs b1,
     served ks ssrs (backend w) = Some (Bs, b1) ->
     Forall (fun k => (k <= 4)%nat) ks ->
     os.is_directory (fs w) (os.parent path) = true ->
     tag_keeps path (Title (WR_Item workerItem)) (WR_Directory workerItem) ->
     exists w1, processItem workerItem w = (Next, w1)) /\
  (forall ks pre ssr post Bs b1 rs b2,
     gate_open workerItem ".mp3" w ->
     ssrs = pre ++ ssr :: post ->
     served ks pre (backend w) = Some (Bs, b1) ->
     Forall (fun k => (k <= 4)%nat) ks ->
     replies 5 ssr b1 = (rs, b2) ->
     forallb is_error rs = true ->
     exists e w1,
       last rs = Some (inr e) /\
       processItem workerItem w = (Return e, w1) /\
       fs w1 = fs w /\ os.Stat (fs w1) path = false /\
       Forall (fun ev => is_write ev = false) (new_events w w1)).
Proof.
  cbn zeta. split; [|split].
  - intros ssr audio w0. exact (synthesizeChunk_attempts ssr audio w0).
  - intros ks Bs b1 Hs Hk Hd Hkeep.
    set (w0 := log_Printf (LogStart (Title (WR_Item workerItem))) w).
    destruct (os.Stat (fs w) (legacyFilePath (Title (WR_Item workerItem)))) eqn:Hl;
      [|destruct (os.Stat (fs w) (artifact workerItem)) eqn:Hp].
    + unfold processItem, shouldSkip, fileExistsAndLog.
      cbn [log_Printf emit fs]. rewrite Hl. eauto.
    + unfold processItem, shouldSkip, fileExistsAndLog.
      cbn [log_Printf emit fs]. rewrite Hl. cbn [log_Printf emit fs].
      unfold artifact in Hp. rewrite Hp. eauto.
    + rewrite (processItem_open workerItem w (conj Hl Hp)). fold w0.
      assert (Hk5 : Forall (fun k => (k < 5)%nat) ks)
        by (eapply Forall_impl; [exact Hk | cbn; lia]).
      destruct (synthesizeAll_served ks (speechRequests_of workerItem) [] w0 Bs b1 Hs Hk5)
        as (w2 & evs & Hall & _).
      pose proof (synthesizeAll_quiet (speechRequests_of workerItem) [] w0) as Hq.
      cbn zeta in Hq. rewrite Hall in Hq |- *. cbn [snd] in Hq.
      destruct Hq as (Hfs & _).
      apply writeArtifact_ok; [rewrite Hfs; exact Hp | rewrite Hfs; exact Hd | exact Hkeep].
  - intros ks pre ssr post Bs b1 rs b2 Hg Hsplit Hs Hk Hrep Herr.
    set (w0 := log_Printf (LogStart (Title (WR_Item workerItem))) w).
    assert (Hk5 : Forall (fun k => (k < 5)%nat) ks)
      by (eapply Forall_impl; [exact Hk | cbn; lia]).
    destruct (synthesizeAll_exhausted ks pre ssr post [] w0 Bs b1 rs b2 Hs Hk5 Hrep Herr)
      as (e & w1 & Hl & Hall).
    pose proof (synthesizeAll_quiet (pre ++ ssr :: post) [] w0) as Hq.
    cbn zeta in Hq. rewrite Hall in Hq. cbn [snd] in Hq.
    destruct Hq as (Hfs & _ & evs & Htr & Hev).
    exists e, w1. rewrite (processItem_open workerItem w Hg), Hsplit. fold w0.
    rewrite Hall. repeat split; try assumption.
    + rewrite Hfs. exact (proj2 Hg).
    + rewrite (new_events_app w w1 (EvLog (LogStart (Title (WR_Item workerItem))) :: evs)).
      * constructor; [reflexivity | assumption].
      * rewrite Htr. unfold w0. world_simpl. now rewrite <- app_assoc.
Qed.



Lemma processItemOffline_open (workerItem : WorkerRequest) (w : World) :
  gate_open workerItem ".wav" w ->
  processItemOffline workerItem w =
    let feedItem := WR_Item workerItem in
    let path := filePath (WR_Directory workerItem) (Title feedItem) ".wav" in
    let w1 := log_Printf (LogStart (Title feedItem)) w in
    let audio := Generate (routeModel (Title feedItem)) (offlineContent feedItem)
                   1 0x1.999999999999ap-1%float in
    let '(fs1, ok) := Save audio path (fs w1) in
    let w2 := emit (EvSave path ok) (set_fs fs1 w1) in
    if negb ok then (Exit, log_Printf (LogFatalWrite path) w2)
    else stamp feedItem path w2.
Proof.
  intros [Hl Hp]. unfold processItemOffline, shouldSkip, fileExistsAndLog.
  cbn [log_Printf emit fs]. rewrite Hl. cbn [log_Printf emit fs]. rewrite Hp.
  reflexivity.
Qed.

Lemma fileTime_cases (item : Item) (now : time.Time) :
  (forall t1, UpdatedParsed item = Some t1 -> fileTime item now = t1) /\
  (forall t2, UpdatedParsed item = None -> PublishedParsed item = Some t2 ->
     fileTime item now = t2) /\
  (UpdatedParsed item = None -> PublishedParsed item = None ->
     fileTime item now = now).
Proof.
  unfold fileTime. repeat split.
  - now intros t1 ->.
  - now intros t2 -> ->.
  - now intros -> ->.
Qed.

(** C6 - Timestamp policy.  An item whose synthesis goes through to the end
    has had [os.Chtimes] applied to its artifact, for modification and access
    time alike, with the item's update time when it has one, else with its
    publish time when it has one, else with the clock at that moment; in the
    remote and in the local variant.  When that time is one that [int64]
    nanoseconds since 1970 hold, the artifact carries it afterwards; when it
    is the zero time the stamp goes through and leaves both times of the file
    as they were. *)
Theorem timestamp_policy_C6 (workerItem : WorkerRequest) (w : World) :
  let item := WR_Item workerItem in
  let wav := filePath (WR_Directory workerItem) (Title item) ".wav" in
  (gate_open workerItem ".mp3" w ->
   (processItem workerItem w).1 = Next ->
   time.representable (fileTime item (now (processItem workerItem w).2)) ->
   stamped item (artifact workerItem) (processItem workerItem w).2) /\
  (gate_open workerItem ".wav" w ->
   (processItemOffline workerItem w).1 = Next ->
   time.representable (fileTime item (now (processItemOffline workerItem w).2)) ->
   stamped item wav (processItemOffline workerItem w).2) /\
  (forall path f,
     fs w !! path = Some f ->
     fileTime item (now w) = time.zero ->
     (stamp item path w).1 = Next /\
     exists f', fs (stamp item path w).2 !! path = Some f' /\
       os.mtime f' = os.mtime f /\ os.atime f' = os.atime f) /\
  (forall now t1, UpdatedParsed item = Some t1 -> fileTime item now = t1) /\
  (forall now t2, UpdatedParsed item = None -> PublishedParsed item = Some t2 ->
     fileTime item now = t2) /\
  (forall now, UpdatedParsed item = None -> PublishedParsed item = None ->
     fileTime item now = now).
Proof.
  cbn zeta. split; [|split; [|split; [|split; [|split]]]].
  - intros Hg H. rewrite (processItem_open workerItem w Hg) in H |- *.
    destruct (synthesizeAll _ _ _) as [[audio|e] w2]; [|discriminate H].
    unfold writeArtifact in H |- *.
    destruct (os_WriteFile _ _ _ w2) as [[e|] w3]; [discriminate H|].
    destruct (stamp _ _ _) as [fl w4] eqn:Hst. cbn [fst snd] in H |- *. subst fl.
    apply stamp_Next in Hst as (Hnow & f0 & f & _ & Hf & Hm & Ha).
    unfold stamped. rewrite Hnow. intros Hr. exists f.
    rewrite Hm, Ha, !utime_representable by exact Hr. auto.
  - intros Hg H. rewrite (processItemOffline_open workerItem w Hg) in H |- *.
    cbn zeta in H |- *. destruct (Save _ _ _) as [fs1 ok].
    destruct ok; cbn [negb] in H |- *; [|discriminate H].
    destruct (stamp _ _ _) as [fl w4] eqn:Hst. cbn [fst snd] in H |- *. subst fl.
    apply stamp_Next in Hst as (Hnow & f0 & f & _ & Hf & Hm & Ha).
    unfold stamped. rewrite Hnow. intros Hr. exists f.
    rewrite Hm, Ha, !utime_representable by exact Hr. auto.
  - intros path f Hf Hz.
    pose proof (stamp_spec (WR_Item workerItem) path w) as S. cbn zeta in S.
    rewrite Hf, Hz in S. destruct S as (w1 & -> & _ & Hfs & _). cbn [fst snd].
    split; [reflexivity|]. eexists. rewrite Hfs, lookup_insert_eq.
    split; [reflexivity|]. cbn [os.mtime os.atime]. now rewrite !utime_zero.
  - intros now t1. apply fileTime_cases.
  - intros now t2. apply fileTime_cases.
  - intros now. apply fileTime_cases.
Qed.

End Item.

(** ** The worker loop and the pool *)

Section Loop.

Context `{Ext : Externals}.

Lemma run_worker_cons (body : WorkerRequest -> World -> Flow * World)
    (workerItem : WorkerRequest) (rest : Chan) (w : World) :
  run_worker body (workerItem :: rest) w =
    match (body workerItem w).1 with
    | Next => run_worker body rest (body workerItem w).2
    | stop => (stop, rest, (body workerItem w).2)
    end.
Proof.
  cbn [run_worker]. destruct (body workerItem w) as [[| |] w1]; reflexivity.
Qed.

(** A worker that is not running takes no turn. *)
Lemma pool_step_idle (p : Pool) (i : nat) :
  workers p !! i <> Some None -> pool_step p i = p.
Proof.
  unfold pool_step. destruct (workers p !! i) as [[f|]|]; congruence.
Qed.

Lemma run_pool_idle (schedule : list nat) (p : Pool) :
  Forall (fun j => workers p !! j <> Some None) schedule ->
  run_pool schedule p = p.
Proof.
  unfold run_pool. induction schedule as [|j schedule IH]; [reflexivity|].
  intros H. apply Forall_cons in H as [Hj H]. cbn [fold_left].
  rewrite (pool_step_idle p j Hj). auto.
Qed.

(** C2, amended - A terminal error ends the worker.  When the loop body
    ends a request with [return err], [processSpeechGeneration] returns that
    error at once: the requests behind it are left in the channel and the
    world is the one the failed request left.  In the pool the worker that
    hit the error is marked returned and takes no further request; the
    state of every other worker is untouched, and the requests left stay in
    the channel for them: a schedule made only of returned (or absent)
    workers changes nothing any more. *)
Theorem terminal_error_ends_worker_C2 (workerItem : WorkerRequest) (rest : Chan)
    (w : World) (e : error) :
  (processItem workerItem w).1 = Return e ->
  let w1 := (processItem workerItem w).2 in
  processSpeechGeneration (workerItem :: rest) w = (Return e, rest, w1) /\
  forall (p : Pool) (i : nat),
    workers p !! i = Some None ->
    chan p = workerItem :: rest ->
    world p = w ->
    let p1 := pool_step p i in
    chan p1 = rest /\ world p1 = w1 /\ closed p1 = closed p /\
    workers p1 = <[i := Some (Return e)]> (workers p) /\
    (forall j, j <> i -> workers p1 !! j = workers p !! j) /\
    (forall schedule,
       Forall (fun j => workers p1 !! j <> Some None) schedule ->
       run_pool schedule p1 = p1).
Proof.
  intros He. cbn zeta. split.
  - unfold processSpeechGeneration. rewrite run_worker_cons, He. reflexivity.
  - intros p i Hi Hc Hw.
    assert (Hstep : pool_step p i =
              {| chan := rest; closed := closed p;
                 workers := <[i := Some (Return e)]> (workers p);
                 world := (processItem workerItem w).2 |}).
    { unfold pool_step. rewrite Hi, Hc, Hw.
      destruct (processItem workerItem w) as [fl w2]. cbn [fst snd] in He |- *.
      now subst fl. }
    rewrite Hstep. cbn [chan world closed workers]. repeat split.
    + intros j Hj. now apply list_lookup_insert_ne.
    + intros schedule Hs. now apply run_pool_idle.
Qed.

End Loop.

(** ** The producer *)

Section Producer.

Context `{Ext : Externals}.

Lemma itemSize_min (size limit : Z) : itemSize size limit = Z.min size limit.
Proof. unfold itemSize. destruct (Z.gtb_spec size limit); lia. Qed.

Lemma considered_eq (cfg : Config) (feed : Feed) :
  considered cfg feed =
    firstn (Z.to_nat (itemSize (Z.of_nat (length (Items feed))) (MaxItemPerFeed cfg)))
      (Items feed).
Proof. unfold considered. now rewrite itemSize_min. Qed.


(** How the loop ends: it finishes when every item has a publish time, and
    panics on the first one that has none. *)
Lemma produce_outcome (cfg : Config) (lang dir : string) (size : Z) (items : list Item) :
  forall itemCnt ch w,
    (produce cfg lang dir size items itemCnt ch w).1.1 =
      if forallb has_publish items then Finished
      else Panicked "invalid memory address or nil pointer dereference".
Proof.
  induction items as [|item items IH]; intros itemCnt ch w; [reflexivity|].
  cbn [produce forallb]. unfold has_publish at 1. unfold isInRange.
  destruct (PublishedParsed item) as [t|]; [|reflexivity].
  cbn [andb]. destruct (_ && _); apply IH.
Qed.

(** Every request the loop sends carries the language and the directory it
    was given. *)
Lemma produce_requests (cfg : Config) (lang dir : string) (size : Z) (items : list Item) :
  forall itemCnt ch w,
    exists added,
      (produce cfg lang dir size items itemCnt ch w).1.2 = ch ++ added /\
      Forall (fun r => WR_LanguageCode r = lang /\ WR_Directory r = dir) added.
Proof.
  induction items as [|item items IH]; intros itemCnt ch w.
  - exists []. cbn. now rewrite app_nil_r.
  - cbn [produce]. destruct (isInRange _ _ _) as [inrange|].
    + destruct (inrange && _).
      * destruct (IH (itemCnt + 1)
                    (ch ++ [{| WR_Item := item; WR_Directory := dir;
                               WR_LanguageCode := lang;
                               WR_UseNaturalVoice := UseNaturalVoice cfg;
                               WR_SpeechSpeed := SpeechSpeed cfg |}])
                    (log_Printf (LogAdding (Title item)) w)) as (added & -> & Hall).
        eexists. rewrite <- app_assoc. split; [reflexivity|].
        constructor; [now cbn | assumption].
      * apply IH.
    + exists []. cbn. now rewrite app_nil_r.
Qed.

Lemma forallb_has_publish (items : list Item) :
  forallb has_publish items = true <->
  Forall (fun item => PublishedParsed item <> None) items.
Proof.
  rewrite forallb_forall, Forall_forall. unfold has_publish.
  split; intros H item Hin.
  - apply list_elem_of_In in Hin. specialize (H item Hin).
    now destruct (PublishedParsed item).
  - apply list_elem_of_In in Hin. specialize (H item Hin).
    now destruct (PublishedParsed item).
Qed.



(** C8 - Language normalisation.  Whatever the feed, every request the
    producer sends carries the tag "cmn-CN" when the feed's language tag
    contains "zh" in any letter case, and the feed's tag unchanged
    otherwise. *)
Theorem language_normalised_C8 (cfg : Config) (feed : Feed) (dir : string)
    (ch : Chan) (w : World) :
  exists added,
    (CreateSpeechFromItems cfg feed dir ch w).1.2 = ch ++ added /\
    (contains_zh (Language feed) ->
     Forall (fun r => WR_LanguageCode r = "cmn-CN") added) /\
    (~ contains_zh (Language feed) ->
     Forall (fun r => WR_LanguageCode r = Language feed) added).
Proof.
  unfold CreateSpeechFromItems.
  set (size := itemSize _ _).
  destruct (size <? 0).
  - exists []. cbn. rewrite app_nil_r. repeat split; constructor.
  - destruct (produce_requests cfg (feedLanguage (Language feed)) dir size
                (firstn (Z.to_nat size) (Items feed)) 0 ch
                (log_Printf (LogFeedTitle (Feed_Title feed)) w))
      as (added & Hch & Hall).
    exists added. split; [exact Hch|]. split; intros Hzh.
    + rewrite (feedLanguage_zh _ Hzh) in Hall.
      eapply Forall_impl; [exact Hall | now intros r [? _]].
    + rewrite (feedLanguage_other _ Hzh) in Hall.
      eapply Forall_impl; [exact Hall | now intros r [? _]].
Qed.

(** C10 - The publish time is dereferenced unconditionally.  The producer
    returns normally exactly when the cap is not negative and every
    considered item has a publish time; a considered item without one makes
    it panic with a nil-pointer dereference, although the field is
    optional ([option]) in the feed item. *)
Theorem producer_needs_publish_time_C10 (cfg : Config) (feed : Feed) (dir : string)
    (ch : Chan) (w : World) :
  ((CreateSpeechFromItems cfg feed dir ch w).1.1 = Finished <->
   0 <= MaxItemPerFeed cfg /\
   Forall (fun item => PublishedParsed item <> None) (considered cfg feed)) /\
  (Exists (fun item => PublishedParsed item = None) (considered cfg feed) ->
   (CreateSpeechFromItems cfg feed dir ch w).1.1 =
     Panicked "invalid memory address or nil pointer dereference").
Proof.
  assert (Hout : (CreateSpeechFromItems cfg feed dir ch w).1.1 =
            if MaxItemPerFeed cfg <? 0 then Panicked "slice bounds out of range"
            else if forallb has_publish (considered cfg feed) then Finished
            else Panicked "invalid memory address or nil pointer dereference").
  { rewrite considered_eq. unfold CreateSpeechFromItems.
    set (size := itemSize _ _).
    assert (Hs : (size <? 0) = (MaxItemPerFeed cfg <? 0)).
    { unfold size. rewrite itemSize_min.
      destruct (Z.ltb_spec (MaxItemPerFeed cfg) 0); [apply Z.ltb_lt | apply Z.ltb_ge]; lia. }
    rewrite Hs. destruct (MaxItemPerFeed cfg <? 0); [reflexivity|].
    apply produce_outcome. }
  rewrite Hout. split.
  - rewrite <- forallb_has_publish.
    destruct (Z.ltb_spec (MaxItemPerFeed cfg) 0) as [Hneg|Hpos].
    + split; [discriminate | lia].
    + destruct (forallb has_publish (considered cfg feed)).
      * split; auto.
      * split; [discriminate | now intros [_ ?]].
  - intros Hex.
    destruct (Z.ltb_spec (MaxItemPerFeed cfg) 0) as [Hneg|Hpos].
    + exfalso. unfold considered in Hex.
      replace (Z.to_nat _) with 0%nat in Hex by lia.
      cbn in Hex. now apply Exists_nil in Hex.
    + destruct (forallb has_publish (considered cfg feed)) eqn:Hall; [|reflexivity].
      exfalso. apply forallb_has_publish in Hall.
      apply Exists_exists in Hex as (item & Hin & Hnone).
      rewrite Forall_forall in Hall. now apply (Hall item Hin).
Qed.

End Producer.

(** ** The identifier *)

Section Identifier.

Lemma EncodeToString_length (l : bytes) :
  String.length (EncodeToString l) = (2 * length l)%nat.
Proof. induction l as [|b l IH]; cbn [EncodeToString String.length length]; lia. Qed.

Lemma bytes_of_string_cons (c : ascii) (s : string) :
  bytes_of_string (String c s) = byte_of_ascii c :: bytes_of_string s.
Proof. reflexivity. Qed.

Lemma bytes_of_string_length (s : string) :
  length (bytes_of_string s) = String.length s.
Proof.
  induction s as [|c s IH]; [reflexivity|].
  rewrite bytes_of_string_cons. cbn [length String.length]. now rewrite IH.
Qed.

(** The first [2 n] digits of the encoding are the encoding of the first
    [n] bytes, whatever follows. *)
Lemma prefix_EncodeToString (n : nat) :
  forall (t : string) (tail : bytes),
    (n <= String.length t)%nat ->
    prefix (2 * n) (EncodeToString (bytes_of_string t ++ tail)) =
      EncodeToString (bytes_of_string (prefix n t)).
Proof.
  induction n as [|n IH]; intros t tail Hn.
  - reflexivity.
  - destruct t as [|c t]; [cbn in Hn; lia|].
    cbn [String.length] in Hn.
    replace (2 * S n)%nat with (S (S (2 * n))) by lia.
    cbn [prefix]. rewrite !bytes_of_string_cons. cbn [app EncodeToString prefix].
    do 2 f_equal. apply IH. lia.
Qed.

(** What the identifier is: the hex digits of the title's own bytes followed
    by those of the digest of the empty input, cut at 50. *)
Lemma hashString_unfold (title : string) :
  hashString title =
    let hs := EncodeToString (bytes_of_string title ++ md5.checkSum []) in
    if 50 <? Z.of_nat (String.length hs) then prefix 50 hs else hs.
Proof. reflexivity. Qed.

Lemma checkSum_empty :
  EncodeToString (md5.checkSum []) = "d41d8cd98f00b204e9800998ecf8427e".
Proof. vm_compute. reflexivity. Qed.

(** From 25 bytes on the identifier is the hex form of the first 25 bytes of
    the title, and of nothing else. *)
Lemma hashString_long (title : string) :
  (25 <= String.length title)%nat ->
  hashString title = EncodeToString (bytes_of_string (prefix 25 title)).
Proof.
  intros H. rewrite hashString_unfold. cbn zeta.
  assert (Hlen : (50 <? Z.of_nat (String.length
             (EncodeToString (bytes_of_string title ++ md5.checkSum [])))) = true).
  { assert (H16 : length (md5.checkSum []) = 16%nat) by (vm_compute; reflexivity).
    apply Z.ltb_lt.
    rewrite EncodeToString_length, length_app, bytes_of_string_length, H16. lia. }
  rewrite Hlen. exact (prefix_EncodeToString 25 title _ H).
Qed.

(** Titles that agree on their first 25 bytes get the same identifier. *)
Lemma hashString_collision (t1 t2 : string) :
  (25 <= String.length t1)%nat -> (25 <= String.length t2)%nat ->
  prefix 25 t1 = prefix 25 t2 ->
  hashString t1 = hashString t2.
Proof. intros H1 H2 E. now rewrite !hashString_long, E. Qed.

(** C3 - The identifier is not a digest of the title.  [md5.New().Sum(b)]
    appends the digest of what was written to the hash, which is nothing, to
    [b]: the identifier of "A" is the hex form of "A" followed by the MD5 of
    the empty input, not the MD5 of "A"; its length depends on the title (34
    for "A", 36 for "AB", 50 from 9 bytes on); and two distinct titles with
    the same first 25 bytes have the same identifier.  The file name is the
    identifier followed by [.mp3] in the remote and [.wav] in the local
    variant. *)
Theorem identifier_not_a_digest_C3 :
  hashString "A" = "41d41d8cd98f00b204e9800998ecf8427e" /\
  EncodeToString (md5.checkSum (bytes_of_string "A")) = "7fc56270e7a70fa81a5935b72eacbe29" /\
  String.length (hashString "A") = 34%nat /\
  String.length (hashString "AB") = 36%nat /\
  String.length (hashString Demo.title1) = 50%nat /\
  Demo.title1 <> Demo.title2 /\
  hashString Demo.title1 = hashString Demo.title2 /\
  hashString Demo.title1 = EncodeToString (bytes_of_string "Weekly digest of the news") /\
  @filePath Demo.ext "/out" "A" ".mp3" = "/out/41d41d8cd98f00b204e9800998ecf8427e.mp3" /\
  @filePath Demo.ext "/out" "A" ".wav" = "/out/41d41d8cd98f00b204e9800998ecf8427e.wav".
Proof.
  split; [vm_compute; reflexivity|].
  split; [vm_compute; reflexivity|].
  split; [vm_compute; reflexivity|].
  split; [vm_compute; reflexivity|].
  split; [vm_compute; reflexivity|].
  split; [discriminate|].
  split; [apply hashString_collision; [cbn; lia | cbn; lia | reflexivity]|].
  split; [apply hashString_long; cbn; lia|].
  split; vm_compute; reflexivity.
Qed.

End Identifier.

(** ** The statements on the concrete instances *)

Lemma Demo_tagger_keeps (path title dir : string) :
  @tag_keeps Demo.ext path title dir.
Proof.
  intros fs0. unfold os.Stat. cbn [WriteID3Tag Demo.ext]. unfold Demo.tagger.
  destruct (fs0 !! path) as [f|] eqn:E; [|discriminate].
  intros _. now rewrite lookup_insert_eq.
Qed.

Lemma retry_loop_bounds_witness :
  (exists w1,
     @processItem Demo.ext (Demo.req Demo.itemC) (Demo.boot Demo.flaky44) = (Next, w1)) /\
  (exists e w1,
     @processItem Demo.ext (Demo.req Demo.itemA) (Demo.boot Demo.down5) = (Return e, w1) /\
     fs w1 = fs (Demo.boot Demo.down5) /\
     os.Stat (fs w1) (@artifact Demo.ext (Demo.req Demo.itemA)) = false).
Proof.
  split.
  - destruct (@retry_loop_bounds Demo.ext (Demo.req Demo.itemC) (Demo.boot Demo.flaky44))
      as (_ & H & _).
    apply (H [4%nat; 4%nat]
             [bytes_of_string "aaa"; bytes_of_string "bbb"] []).
    + vm_compute. reflexivity.
    + repeat constructor.
    + vm_compute. reflexivity.
    + apply Demo_tagger_keeps.
  - destruct (@retry_loop_bounds Demo.ext (Demo.req Demo.itemA) (Demo.boot Demo.down5))
      as (_ & _ & H).
    destruct (H [] [] "A"%string [] [] Demo.down5
                [Demo.boom 1; Demo.boom 2; Demo.boom 3; Demo.boom 4; Demo.boom 5]
                [Demo.mp3 "bbb"])
      as (e & w1 & _ & Hp & Hfs & Hst & _).
    + split; vm_compute; reflexivity.
    + vm_compute. reflexivity.
    + vm_compute. reflexivity.
    + constructor.
    + vm_compute. reflexivity.
    + vm_compute. reflexivity.
    + exists e, w1. auto.
Defined.


Lemma timestamp_policy_C6_witness :
  @stamped Demo.ext (WR_Item (Demo.req Demo.itemC))
    (@artifact Demo.ext (Demo.req Demo.itemC))
    (@processItem Demo.ext (Demo.req Demo.itemC) Demo.ready).2 /\
  @stamped Demo.ext (WR_Item (Demo.req Demo.itemA))
    (@filePath Demo.ext (WR_Directory (Demo.req Demo.itemA))
       (Title (WR_Item (Demo.req Demo.itemA))) ".wav")
    (@processItemOffline Demo.ext (Demo.req Demo.itemA) Demo.ready).2 /\
  exists f',
    fs (@stamp Demo.ext Demo.itemZ "/out/A.mp3" Demo.legacy_run).2 !! "/out/A.mp3"
      = Some f' /\
    os.mtime f' = Demo.noon /\ os.atime f' = Demo.noon.
Proof.
  split; [|split].
  - apply (proj1 (@timestamp_policy_C6 Demo.ext (Demo.req Demo.itemC) Demo.ready)).
    + split; vm_compute; reflexivity.
    + vm_compute. reflexivity.
    + unfold time.representable. vm_compute. split; [discriminate|reflexivity].
  - apply (proj1 (proj2 (@timestamp_policy_C6 Demo.ext (Demo.req Demo.itemA) Demo.ready))).
    + split; vm_compute; reflexivity.
    + vm_compute. reflexivity.
    + unfold time.representable. vm_compute. split; [discriminate|reflexivity].
  - apply (proj1 (proj2 (proj2
             (@timestamp_policy_C6 Demo.ext (Demo.req Demo.itemZ) Demo.legacy_run)))
             "/out/A.mp3"%string
             {| os.isdir := false; os.data := bytes_of_string "old";
                os.mode := octal 6 4 4; os.atime := Demo.noon;
                os.mtime := Demo.noon |}).
    + vm_compute. reflexivity.
    + reflexivity.
Defined.

(** C6, as stated, fails: the update time of the item is the zero time, the
    pass goes through, and the artifact keeps the time of its write, noon,
    as modification time. *)
Lemma timestamp_policy_C6_counterexample :
  ~ @stamps_every_item Demo.ext.
Proof.
  intros H.
  destruct (H (Demo.req Demo.itemZ) Demo.ready) as (f & Hf & Hm & _).
  - split; vm_compute; reflexivity.
  - vm_compute. reflexivity.
  - assert (E : os.mtime <$>
                 fs (@processItem Demo.ext (Demo.req Demo.itemZ) Demo.ready).2
                   !! @artifact Demo.ext (Demo.req Demo.itemZ) = Some Demo.noon)
      by (vm_compute; reflexivity).
    rewrite Hf in E. cbn [fmap option_fmap option_map] in E.
    injection E as E. rewrite Hm in E. vm_compute in E. discriminate E.
Qed.

(** C2, as stated, fails: with the backend down for the first request the
    worker returns, whereas it would have to go on with the second one. *)
Lemma item_errors_contained_C2_counterexample :
  ~ @item_errors_contained Demo.ext.
Proof.
  intros H.
  specialize (H (Demo.req Demo.itemA) [Demo.req Demo.itemB] (Demo.boot Demo.down5)
                (RPCError "deadline exceeded")).
  assert (E : (@processItem Demo.ext (Demo.req Demo.itemA) (Demo.boot Demo.down5)).1 =
              Return (RPCError "deadline exceeded")) by (vm_compute; reflexivity).
  specialize (H E). apply (f_equal (fun r => r.1.1)) in H.
  vm_compute in H. discriminate H.
Qed.

Lemma terminal_error_ends_worker_C2_witness :
  @processSpeechGeneration Demo.ext [Demo.req Demo.itemA; Demo.req Demo.itemB]
    (Demo.boot Demo.down5) =
    (Return (RPCError "deadline exceeded"), [Demo.req Demo.itemB],
     (@processItem Demo.ext (Demo.req Demo.itemA) (Demo.boot Demo.down5)).2) /\
  chan (pool_step Demo.pool2 0) = [Demo.req Demo.itemB] /\
  workers (pool_step Demo.pool2 0) =
    <[0%nat := Some (Return (RPCError "deadline exceeded"))]> (workers Demo.pool2).
Proof.
  destruct (@terminal_error_ends_worker_C2 Demo.ext (Demo.req Demo.itemA)
              [Demo.req Demo.itemB] (Demo.boot Demo.down5)
              (RPCError "deadline exceeded")) as [H1 H2].
  - vm_compute. reflexivity.
  - split; [exact H1|].
    destruct (H2 Demo.pool2 0%nat) as (Hc & _ & _ & Hw & _);
      [reflexivity | reflexivity | reflexivity |].
    split; [exact Hc | exact Hw].
Defined.

(** With one worker the second request is never served; with two, the other
    worker serves it. *)
Example single_worker_strands_queue :
  chan (run_pool [0; 0; 0]%nat Demo.pool1) = [Demo.req Demo.itemB] /\
  workers (run_pool [0; 0; 0]%nat Demo.pool1) =
    [Some (Return (RPCError "deadline exceeded"))] /\
  chan (run_pool [0; 1; 1]%nat Demo.pool2) = [] /\
  workers (run_pool [0; 1; 1]%nat Demo.pool2) =
    [Some (Return (RPCError "deadline exceeded")); Some Next] /\
  os.Stat (fs (world (run_pool [0; 1; 1]%nat Demo.pool2)))
    (@artifact Demo.ext (Demo.req Demo.itemB)) = true.
Proof. repeat split; vm_compute; reflexivity. Qed.


Lemma language_normalised_C8_witness :
  (exists added,
     (@CreateSpeechFromItems Demo.ext Demo.cfg Demo.feedANB "/out" [] (Demo.boot [])).1.2
       = [] ++ added /\
     Forall (fun r => WR_LanguageCode r = "cmn-CN") added) /\
  (exists added,
     (@CreateSpeechFromItems Demo.ext Demo.cfg Demo.feedAB "/out" [] (Demo.boot [])).1.2
       = [] ++ added /\
     Forall (fun r => WR_LanguageCode r = "en-US") added).
Proof.
  split.
  - destruct (@language_normalised_C8 Demo.ext Demo.cfg Demo.feedANB "/out" []
                (Demo.boot [])) as (added & H1 & H2 & _).
    exists added. split; [exact H1|]. apply H2.
    exists ""%string, "-TW"%string, "z"%char, "h"%char. auto.
  - destruct (@language_normalised_C8 Demo.ext Demo.cfg Demo.feedAB "/out" []
                (Demo.boot [])) as (added & H1 & _ & H3).
    exists added. split; [exact H1|]. apply H3.
    intros Hzh. apply Contains_zh in Hzh. vm_compute in Hzh. discriminate Hzh.
Defined.

Lemma producer_needs_publish_time_C10_witness :
  (@CreateSpeechFromItems Demo.ext Demo.cfg Demo.feedANB "/out" [] (Demo.boot [])).1.1 =
    Panicked "invalid memory address or nil pointer dereference".
Proof.
  apply (proj2 (@producer_needs_publish_time_C10 Demo.ext Demo.cfg Demo.feedANB "/out"
                  [] (Demo.boot []))).
  apply Exists_cons_tl, Exists_cons_hd. reflexivity.
Defined.

(** The scenario of the specification: two items, cap 5, window 48 hours,
    one published an hour ago and one 72 hours ago. *)
Example recency_scenario :
  recent Demo.cfg Demo.noon Demo.itemA = true /\
  recent Demo.cfg Demo.noon Demo.itemB = false /\
  isInRange Demo.noon (Some (Demo.hours_ago 48)) 48%float = Some true /\
  isInRange Demo.noon (Some (Demo.hours_ago 48 - 1)) 48%float = Some false /\
  isInRange Demo.noon None 48%float = None /\
  (@CreateSpeechFromItems Demo.ext Demo.cfg Demo.feedAB "/out" [] (Demo.boot [])).1.2 =
    [Demo.req Demo.itemA].
Proof. repeat split; vm_compute; reflexivity. Qed.

(** C4 - The legacy path is not looked for under the output directory.
    The gate skips exactly when [Abs(sanitizedTitle.mp3)] or
    [Abs(Directory/identifier.mp3)] exists: the first of the two paths does
    not mention the output directory.  The older worker wrote item A to
    [/out/A.mp3]; the gate looks for [/cwd/A.mp3], does not find the
    artifact and lets the item be synthesized again; conversely a stray
    [/cwd/A.mp3] makes the gate skip an item that has no artifact at all
    under the output directory. *)
Theorem legacy_path_misses_directory_C4 :
  (forall (Ext : Externals) (title dir : string) (w : World),
     (shouldSkip (legacyFilePath title) (filePath dir title ".mp3") w).1 =
       os.Stat (fs w) (filepath_Abs (ReplaceAll title "/" "\/" +:+ ".mp3"))
       || os.Stat (fs w) (filepath_Abs (dir +:+ "/" +:+ hashString title +:+ ".mp3"))) /\
  @main_filepath Demo.ext (Demo.req Demo.itemA) = "/out/A.mp3" /\
  os.Stat (fs Demo.legacy_run) "/out/A.mp3" = true /\
  @legacyFilePath Demo.ext "A" = "/cwd/A.mp3" /\
  (@shouldSkip Demo.ext (@legacyFilePath Demo.ext "A")
     (@artifact Demo.ext (Demo.req Demo.itemA)) Demo.legacy_run).1 = false /\
  payloads (new_events Demo.legacy_run
              (@processItem Demo.ext (Demo.req Demo.itemA) Demo.legacy_run).2) =
    [bytes_of_string "new"] /\
  os.Stat (fs Demo.stray) "/out/A.mp3" = false /\
  os.Stat (fs Demo.stray) (@artifact Demo.ext (Demo.req Demo.itemA)) = false /\
  new_events Demo.stray (@processItem Demo.ext (Demo.req Demo.itemA) Demo.stray).2 =
    [EvLog (LogStart "A"); EvLog (LogFileExists "/cwd/A.mp3")].
Proof.
  split.
  - intros Ext title dir w.
    destruct (shouldSkip_spec (legacyFilePath title) (filePath dir title ".mp3") w)
      as (w1 & -> & _). reflexivity.
  - repeat split; vm_compute; reflexivity.
Qed.

(** C9 - The artifact is written executable.  Whatever the request, the
    only file the remote worker writes is the artifact, and it passes
    [0o755] to [os.WriteFile], a mode with the three execute bits set: under
    the usual umask 022 the new artifact of item A has mode 0o755, where the
    older worker passed [0o644], which has none. *)
Theorem artifact_written_executable_C9 :
  (forall (Ext : Externals) (workerItem : WorkerRequest) (w : World),
     let writes := List.filter is_write (new_events w (processItem workerItem w).2) in
     writes = [] \/
     exists d r, writes = [EvWriteFile (artifact workerItem) d (octal 7 5 5) r]) /\
  exec_bits (octal 7 5 5) = octal 1 1 1 /\
  os.mode <$> fs (@processItem Demo.ext (Demo.req Demo.itemA) Demo.ready).2
                !! @artifact Demo.ext (Demo.req Demo.itemA) = Some (octal 7 5 5) /\
  os.mode <$> fs Demo.legacy_run !! "/out/A.mp3" = Some (octal 6 4 4) /\
  exec_bits (octal 6 4 4) = 0.
Proof.
  split; [intros Ext workerItem w; apply processItem_writes|].
  repeat split; vm_compute; reflexivity.
Qed.

(** The retry scenario of the specification: four errors, then audio. *)
Example four_failures_then_success :
  let r := @processItem Demo.ext (Demo.req Demo.itemA) (Demo.boot Demo.flaky4) in
  r.1 = Next /\
  length (List.filter is_call (trace r.2)) = 5%nat /\
  List.filter is_sleep (trace r.2) = repeat (EvSleep time.Second) 4 /\
  now r.2 = Demo.noon + 4 * time.Second /\
  os.data <$> fs r.2 !! @artifact Demo.ext (Demo.req Demo.itemA) =
    Some (bytes_of_string "ID3Aaaa").
Proof. repeat split; vm_compute; reflexivity. Qed.

(** C1 - Retry bound.  The retry loop takes an empty payload for a failed
    attempt and tries again, but the test after the loop looks at the error
    only: when the fifth attempt returns an empty payload, the five failed
    attempts surface no error.  With four errors and then an empty payload
    for the only chunk of an item, the pass makes its five calls with four
    sleeps of a second, ends without an error and writes an artifact that
    holds no audio; the gate is closed from then on, and the next pass skips
    the item without a call.  With five empty payloads for the second of
    three chunks, the artifact is written from the other two. *)
Theorem exhausted_empty_payload_C1 :
  let request := Demo.req Demo.itemA in
  let r := @processItem Demo.ext request (Demo.boot Demo.mute5) in
  let again := @processItem Demo.ext request r.2 in
  let h := @processItem Demo.ext (Demo.req Demo.item3) (Demo.boot Demo.hollow) in
  (@replies Demo.ext 5 "A"%string Demo.mute5 = (Demo.mute5, []) /\
   forallb is_failure Demo.mute5 = true /\
   r.1 = Next /\
   List.filter is_call (trace r.2) =
     map (@EvCall Demo.ext "A"%string) Demo.mute5 /\
   List.filter is_sleep (trace r.2) = repeat (EvSleep time.Second) 4 /\
   List.filter is_write (trace r.2) =
     [EvWriteFile (@artifact Demo.ext request) [] (octal 7 5 5) None] /\
   os.Stat (fs r.2) (@artifact Demo.ext request) = true /\
   last (trace r.2) =
     Some (EvLog (LogFinished "A" (@artifact Demo.ext request))) /\
   again.1 = Next /\
   List.filter is_call (new_events r.2 again.2) = []) /\
  (h.1 = Next /\
   List.filter is_write (trace h.2) =
     [EvWriteFile (@artifact Demo.ext (Demo.req Demo.item3)) (bytes_of_string "AC")
        (octal 7 5 5) None]).
Proof.
  cbn zeta.
  split; [split; [|split; [|split; [|split; [|split; [|split; [|split; [|split;
    [|split]]]]]]]]|split]; reflexivity.
Qed.

(** The sizes [NewWorkerGroup] computes: the minimum of the configured
    concurrency and the capacity of the channel, the capacity being a product
    of two [int]s that wraps around. *)
Example sizes_of_the_pool :
  channelSize Demo.cfg = 5 /\ workerSize Demo.cfg = Some 1 /\
  channelSize Demo.cfg_wide = 0 /\ workerSize Demo.cfg_wide = Some 0.
Proof. repeat split; vm_compute; reflexivity. Qed.

(* ===================================================================== *)
(** * Further properties of the worker *)
(* ===================================================================== *)

(** ** What one request costs and what its write carries *)

Section Cost.

Context `{Ext : Externals}.

Lemma filter_call_events (ssr : SSR) (r : bytes + error) :
  List.filter is_call (call_events ssr r) = [EvCall ssr r].
Proof. now destruct r. Qed.

(** [n] attempts are [n] calls. *)
Lemma attempts_calls (ssr : SSR) (m : nat) (evs : list Event) :
  attempts ssr m evs -> length (List.filter is_call evs) = m.
Proof.
  induction 1 as [r|n evs err r _ IH].
  - now rewrite filter_call_events.
  - rewrite !List.filter_app, filter_call_events, !length_app, IH. cbn. lia.
Qed.

(** What the loop of one chunk appends is what it received: at most one
    payload, and none when it ends with an error. *)
Lemma retry_payloads (ssr : SSR) (left : nat) :
  forall i err audio w,
    let r := retry left i ssr err audio w in
    exists evs,
      trace r.2 = trace w ++ evs /\
      r.1.2 = audio ++ concat (payloads evs) /\
      (length (payloads evs) <= 1)%nat /\
      (forall e, r.1.1 = Some e -> payloads evs = []).
Proof.
  induction left as [|left IH]; intros i err audio w; cbn zeta.
  - exists []. cbn. rewrite !app_nil_r. repeat split; auto with arith.
  - destruct (call_backend ssr (pause i err w)) as [r w2] eqn:Hc.
    rewrite (retry_step _ _ _ _ _ _ _ _ Hc).
    apply call_backend_spec in Hc as (_ & _ & _ & _ & Htr).
    destruct (pause_spec i err w) as (_ & _ & _ & Ptr). rewrite Ptr in Htr.
    destruct r as [content|e].
    + destruct (0 <? Z.of_nat (length content)) eqn:Hne.
      * eexists. cbn [fst snd]. split; [rewrite Htr, <- app_assoc; reflexivity|].
        rewrite payloads_app, payloads_pause. cbn [payloads app]. rewrite Hne.
        cbn. rewrite app_nil_r. repeat split; [lia | discriminate].
      * specialize (IH (i + 1) None audio w2). cbn zeta in IH.
        destruct IH as (evs & Htr1 & Ha & Hl & He).
        eexists. split; [rewrite Htr1, Htr, <- !app_assoc; reflexivity|].
        rewrite !payloads_app, payloads_pause. cbn [payloads app]. rewrite Hne.
        auto.
    + specialize (IH (i + 1) (Some e) audio (log_Printf (LogBackendError e) w2)).
      cbn zeta in IH. destruct IH as (evs & Htr1 & Ha & Hl & He).
      eexists. split.
      * rewrite Htr1. cbn [log_Printf emit trace]. rewrite Htr, <- !app_assoc.
        reflexivity.
      * rewrite !payloads_app, payloads_pause. cbn [payloads app]. auto.
Qed.

(** The synthesis phase as a whole: its events hold no write, at most five
    calls and one payload per chunk; the clock moves on by at most four
    seconds per chunk; and the audio it hands over is what it received, in
    the order of the calls. *)
Lemma synthesizeAll_summary (ssrs : list SSR) :
  forall audio w,
    let r := synthesizeAll ssrs audio w in
    exists evs,
      trace r.2 = trace w ++ evs /\
      Forall (fun e => is_write e = false) evs /\
      (length (List.filter is_call evs) <= 5 * length ssrs)%nat /\
      (length (payloads evs) <= length ssrs)%nat /\
      now w <= now r.2 <= now w + 4 * Z.of_nat (length ssrs) * time.Second /\
      fs r.2 = fs w /\
      (forall a, r.1 = inl a -> a = audio ++ concat (payloads evs)).
Proof.
  induction ssrs as [|ssr ssrs IH]; intros audio w; cbn zeta.
  - exists []. cbn. rewrite !app_nil_r. repeat split; try lia; try constructor.
    now intros a [= <-].
  - cbn [synthesizeAll].
    destruct (synthesizeChunk_attempts ssr audio w) as (m & evs & Hm & Hat & Htr & Hnow).
    pose proof (retry_quiet ssr (Z.to_nat SPEECH_SYNTHESIZE_RETRY_CNT) 0 None audio w) as Hq.
    pose proof (retry_payloads ssr (Z.to_nat SPEECH_SYNTHESIZE_RETRY_CNT) 0 None audio w) as Hp.
    cbn zeta in Hq, Hp. fold (synthesizeChunk ssr audio w) in Hq, Hp.
    destruct (synthesizeChunk ssr audio w) as [[err audio1] w1].
    cbn [fst snd] in *.
    destruct Hq as (Hfs & _ & evs1 & Htr1 & Hev).
    destruct Hp as (evs2 & Htr2 & Ha & Hl & He).
    assert (evs1 = evs) as -> by (rewrite Htr in Htr1; now apply app_inv_head in Htr1).
    assert (evs2 = evs) as -> by (rewrite Htr in Htr2; now apply app_inv_head in Htr2).
    apply attempts_calls in Hat.
    assert (HS : time.Second = 1000000000) by reflexivity.
    destruct err as [e|].
    + exists evs. cbn [fst snd length]. repeat split; try assumption; try lia.
      discriminate.
    + specialize (IH audio1 w1). cbn zeta in IH.
      destruct IH as (evs' & Htr' & Hev' & Hc' & Hp' & Hnow' & Hfs' & Ha').
      exists (evs ++ evs'). cbn [length].
      rewrite List.filter_app, payloads_app, !length_app.
      repeat split; try lia.
      * rewrite Htr', Htr, <- app_assoc. reflexivity.
      * now apply Forall_app.
      * congruence.
      * intros a Hr. rewrite (Ha' a Hr), Ha, concat_app, app_assoc. reflexivity.
Qed.

(** From the write on the clock, the backend and the umask stay as they are. *)
Lemma writeArtifact_frame (workerItem : WorkerRequest) (path : string)
    (audio : bytes) (w : World) :
  let w1 := (writeArtifact workerItem path audio w).2 in
  now w1 = now w /\ backend w1 = backend w /\ umask w1 = umask w.
Proof.
  cbn zeta. unfold writeArtifact, os_WriteFile, stamp, os_Chtimes, tool_WriteID3Tag.
  destruct (os.WriteFile _ _ _ _ _ _); cbn [fst snd]; world_simpl; [|now cbn].
  destruct (os.Chtimes _ _ _ _); now cbn.
Qed.

(** When the gate is closed the pass only logs: the start line and the path
    that was found; it ends normally and changes nothing else. *)
Lemma processItem_closed (workerItem : WorkerRequest) (w : World) :
  gate_closed workerItem ".mp3" w ->
  exists p,
    processItem workerItem w =
      (Next, log_Printf (LogFileExists p)
               (log_Printf (LogStart (Title (WR_Item workerItem))) w)) /\
    os.Stat (fs w) p = true.
Proof.
  unfold gate_closed, processItem, shouldSkip, fileExistsAndLog.
  cbn [log_Printf emit fs]. intros H.
  destruct (os.Stat (fs w) (legacyFilePath _)) eqn:Hl.
  - eexists. split; [reflexivity | exact Hl].
  - cbn [orb] in H. cbn [log_Printf emit fs]. rewrite H. eexists.
    split; [reflexivity | exact H].
Qed.

Lemma gate_dec (workerItem : WorkerRequest) (ext : string) (w : World) :
  gate_closed workerItem ext w \/ gate_open workerItem ext w.
Proof.
  unfold gate_closed, gate_open.
  destruct (os.Stat _ _); [now left|]. destruct (os.Stat _ _); [now left | now right].
Qed.

(** One request costs at most five backend calls per chunk, and the worker
    sleeps at most four seconds per chunk on it. *)
Theorem item_cost (workerItem : WorkerRequest) (w : World) :
  let r := processItem workerItem w in
  let n := length (speechRequests_of workerItem) in
  (length (List.filter is_call (new_events w r.2)) <= 5 * n)%nat /\
  now w <= now r.2 <= now w + 4 * Z.of_nat n * time.Second.
Proof.
  cbn zeta. destruct (gate_dec workerItem ".mp3" w) as [Hc|Ho].
  - destruct (processItem_closed workerItem w Hc) as (p & -> & _).
    cbn [snd]. rewrite (new_events_app w _ [EvLog (LogStart (Title (WR_Item workerItem)));
                                             EvLog (LogFileExists p)]).
    + cbn. change time.Second with 1000000000. lia.
    + world_simpl. now rewrite <- app_assoc.
  - rewrite (processItem_open workerItem w Ho).
    set (w0 := log_Printf (LogStart (Title (WR_Item workerItem))) w).
    destruct (synthesizeAll_summary (speechRequests_of workerItem) [] w0)
      as (evs & Htr & _ & Hcalls & _ & Hnow & _).
    change (now w0) with (now w) in Hnow.
    assert (Htr0 : trace w0 = trace w ++ [EvLog (LogStart (Title (WR_Item workerItem)))])
      by reflexivity.
    destruct (synthesizeAll _ [] w0) as [[audio|e] w2]; cbn [fst snd] in *.
    + destruct (writeArtifact_trace workerItem (artifact workerItem) audio w2)
        as (r & after & Hwt & Haft & _).
      destruct (writeArtifact_frame workerItem (artifact workerItem) audio w2) as (-> & _).
      split; [|exact Hnow].
      rewrite (new_events_app w _
                 ((EvLog (LogStart (Title (WR_Item workerItem))) :: evs)
                  ++ EvWriteFile (artifact workerItem) audio (octal 7 5 5) r :: after)).
      * rewrite List.filter_app. cbn [List.filter is_call].
        assert (Hno : List.filter is_call after = []).
        { clear - Haft. induction Haft as [|e l [_ He] _ IH]; [reflexivity|].
          cbn [List.filter]. now rewrite He. }
        rewrite Hno, app_nil_r. exact Hcalls.
      * rewrite Hwt, Htr, Htr0. now rewrite <- !app_assoc.
    + split; [|exact Hnow].
      rewrite (new_events_app w _ (EvLog (LogStart (Title (WR_Item workerItem))) :: evs)).
      * exact Hcalls.
      * rewrite Htr, Htr0. now rewrite <- app_assoc.
Qed.

(** Whatever the backend answers, the remote worker either writes nothing
    or writes once, at the artifact path, exactly the non-empty payloads it
    has received for the request, concatenated in the order of the calls, at
    most one per chunk; no call follows the write. *)
Theorem write_carries_payloads (workerItem : WorkerRequest) (w : World) :
  let evs := new_events w (processItem workerItem w).2 in
  Forall (fun e => is_write e = false) evs \/
  exists before r after,
    evs = before ++ EvWriteFile (artifact workerItem) (concat (payloads before))
                      (octal 7 5 5) r :: after /\
    Forall (fun e => is_write e = false) before /\
    Forall (fun e => is_write e = false /\ is_call e = false) after /\
    (length (payloads before) <= length (speechRequests_of workerItem))%nat.
Proof.
  cbn zeta. destruct (gate_dec workerItem ".mp3" w) as [Hc|Ho].
  - left. destruct (processItem_closed workerItem w Hc) as (p & -> & _).
    cbn [snd]. rewrite (new_events_app w _ [EvLog (LogStart (Title (WR_Item workerItem)));
                                             EvLog (LogFileExists p)]).
    + repeat constructor.
    + world_simpl. now rewrite <- app_assoc.
  - rewrite (processItem_open workerItem w Ho).
    set (w0 := log_Printf (LogStart (Title (WR_Item workerItem))) w).
    destruct (synthesizeAll_summary (speechRequests_of workerItem) [] w0)
      as (evs & Htr & Hev & _ & Hp & _ & _ & Ha).
    assert (Htr0 : trace w0 = trace w ++ [EvLog (LogStart (Title (WR_Item workerItem)))])
      by reflexivity.
    destruct (synthesizeAll _ [] w0) as [[audio|e] w2]; cbn [fst snd] in *.
    + right. rewrite (Ha audio eq_refl). cbn [app].
      destruct (writeArtifact_trace workerItem (artifact workerItem)
                  (concat (payloads evs)) w2) as (r & after & Hwt & Haft & _).
      exists (EvLog (LogStart (Title (WR_Item workerItem))) :: evs), r, after.
      split; [|split; [|split]].
      * apply new_events_app. rewrite Hwt, Htr, Htr0. cbn [payloads].
        now rewrite <- !app_assoc.
      * constructor; [reflexivity | exact Hev].
      * exact Haft.
      * exact Hp.
    + left.
      rewrite (new_events_app w _ (EvLog (LogStart (Title (WR_Item workerItem))) :: evs)).
      * constructor; [reflexivity | exact Hev].
      * rewrite Htr, Htr0. now rewrite <- app_assoc.
Qed.

End Cost.

(** ** Running again over the same requests *)

Section Idempotence.

Context `{Ext : Externals}.

Lemma Stat_insert (fs0 : gmap string os.File) (q p : string) (f : os.File) :
  os.Stat fs0 p = true -> os.Stat (<[q := f]> fs0) p = true.
Proof.
  unfold os.Stat. rewrite lookup_insert. destruct (decide (q = p)); [reflexivity|].
  now destruct (fs0 !! p).
Qed.

Lemma WriteFile_keeps (um t : Z) (fs0 fs1 : gmap string os.File) (name p : string)
    (d : bytes) (perm : Z) :
  os.WriteFile um t fs0 name d perm = inl fs1 ->
  os.Stat fs0 p = true -> os.Stat fs1 p = true.
Proof.
  unfold os.WriteFile. destruct (fs0 !! name) as [f|].
  - destruct (os.isdir f); [discriminate|]. intros [= <-]. apply Stat_insert.
  - destruct (os.is_directory _ _); [|discriminate]. intros [= <-]. apply Stat_insert.
Qed.

Lemma Chtimes_keeps (fs0 fs1 : gmap string os.File) (name p : string) (a m : Z) :
  os.Chtimes fs0 name a m = inl fs1 ->
  os.Stat fs0 p = true -> os.Stat fs1 p = true.
Proof.
  unfold os.Chtimes. destruct (fs0 !! name) as [f|]; [|discriminate].
  intros [= <-]. apply Stat_insert.
Qed.

(** No pass of the remote worker removes a file, if the tagger removes none. *)
Lemma processItem_keeps (workerItem : WorkerRequest) (w : World) (p : string) :
  tagger_keeps_files ->
  os.Stat (fs w) p = true -> os.Stat (fs (processItem workerItem w).2) p = true.
Proof.
  intros Hk Hp. destruct (gate_dec workerItem ".mp3" w) as [Hc|Ho].
  - destruct (processItem_closed workerItem w Hc) as (q & -> & _). exact Hp.
  - rewrite (processItem_open workerItem w Ho).
    set (w0 := log_Printf (LogStart (Title (WR_Item workerItem))) w).
    destruct (synthesizeAll_summary (speechRequests_of workerItem) [] w0)
      as (evs & _ & _ & _ & _ & _ & Hfs & _).
    change (fs w0) with (fs w) in Hfs.
    destruct (synthesizeAll _ [] w0) as [[audio|e] w2]; cbn [fst snd] in *;
      [|now rewrite Hfs].
    rewrite <- Hfs in Hp.
    unfold writeArtifact, os_WriteFile, stamp, os_Chtimes, tool_WriteID3Tag.
    destruct (os.WriteFile _ _ _ _ _ _) as [fs1|e] eqn:Hw; cbn [fst snd]; world_simpl;
      [|exact Hp].
    pose proof (Hk (artifact workerItem) (Title (WR_Item workerItem))
                  (WR_Directory workerItem) p fs1 (WriteFile_keeps _ _ _ _ _ _ _ _ Hw Hp))
      as Hp1.
    destruct (os.Chtimes _ _ _ _) as [fs2|e] eqn:Hc; cbn [fst snd]; world_simpl;
      [exact (Chtimes_keeps _ _ _ _ _ _ Hc Hp1) | exact Hp1].
Qed.

(** A pass that ends normally leaves the gate closed for its request. *)
Lemma processItem_Next_closes (workerItem : WorkerRequest) (w : World) :
  (processItem workerItem w).1 = Next ->
  gate_closed workerItem ".mp3" (processItem workerItem w).2.
Proof.
  intros H. destruct (gate_dec workerItem ".mp3" w) as [Hc|Ho].
  - destruct (processItem_closed workerItem w Hc) as (q & -> & _). exact Hc.
  - rewrite (processItem_open workerItem w Ho) in H |- *.
    destruct (synthesizeAll _ _ _) as [[audio|e] w2]; [|discriminate H].
    unfold writeArtifact in H |- *.
    destruct (os_WriteFile _ _ _ w2) as [[e|] w3]; [discriminate H|].
    destruct (stamp _ _ _) as [fl w4] eqn:Hst. cbn [fst snd] in H |- *. subst fl.
    apply stamp_Next in Hst as (_ & f0 & f & _ & Hf & _).
    unfold gate_closed. apply orb_true_iff. right.
    fold (artifact workerItem). unfold os.Stat. now rewrite Hf.
Qed.

Lemma gate_closed_mono (workerItem : WorkerRequest) (ext : string) (w w1 : World) :
  (forall p, os.Stat (fs w) p = true -> os.Stat (fs w1) p = true) ->
  gate_closed workerItem ext w -> gate_closed workerItem ext w1.
Proof.
  unfold gate_closed. intros Hm H. apply orb_true_iff in H as [H|H];
    apply orb_true_iff; [left | right]; now apply Hm.
Qed.

Lemma run_keeps (q : Chan) :
  forall w p,
    tagger_keeps_files ->
    os.Stat (fs w) p = true ->
    os.Stat (fs (processSpeechGeneration q w).2) p = true.
Proof.
  unfold processSpeechGeneration.
  induction q as [|r q IH]; intros w p Hk Hp; [exact Hp|].
  rewrite run_worker_cons.
  pose proof (processItem_keeps r w p Hk Hp) as Hp1.
  destruct (processItem r w).1; cbn [snd]; auto.
Qed.

(** A run that ends normally leaves the gate closed for every request. *)
Lemma run_closes (q : Chan) :
  forall w,
    tagger_keeps_files ->
    (processSpeechGeneration q w).1.1 = Next ->
    Forall (fun r => gate_closed r ".mp3" (processSpeechGeneration q w).2) q.
Proof.
  unfold processSpeechGeneration.
  induction q as [|r q IH]; intros w Hk H; [constructor|].
  rewrite run_worker_cons in H |- *.
  pose proof (processItem_Next_closes r w) as Hc.
  destruct (processItem r w).1; cbn [fst] in H; try discriminate H.
  specialize (Hc eq_refl). constructor; [|now apply IH].
  eapply gate_closed_mono; [|exact Hc].
  intros p Hp. now apply (run_keeps q).
Qed.

(** Over requests whose gates are all closed the worker only logs. *)
Lemma run_closed (q : Chan) :
  forall w,
    Forall (fun r => gate_closed r ".mp3" w) q ->
    exists w2 evs,
      processSpeechGeneration q w = (Next, [], w2) /\
      fs w2 = fs w /\ backend w2 = backend w /\ now w2 = now w /\
      trace w2 = trace w ++ evs /\
      Forall (fun e => is_call e = false /\ is_write e = false) evs.
Proof.
  unfold processSpeechGeneration.
  induction q as [|r q IH]; intros w Hall.
  - exists w, []. cbn. rewrite app_nil_r. repeat split. constructor.
  - apply Forall_cons in Hall as [Hr Hall].
    destruct (processItem_closed r w Hr) as (p & Hp & _).
    rewrite run_worker_cons, Hp. cbn [fst snd].
    set (w1 := log_Printf _ _).
    destruct (IH w1) as (w2 & evs & -> & Hfs & Hb & Hn & Htr & Hev).
    + eapply Forall_impl; [exact Hall|]. intros r0 H0. exact H0.
    + exists w2, ([EvLog (LogStart (Title (WR_Item r))); EvLog (LogFileExists p)] ++ evs).
      repeat split; try assumption.
      * rewrite Htr. unfold w1. world_simpl. now rewrite <- !app_assoc.
      * apply Forall_app. split; [repeat constructor | exact Hev].
Qed.

(** Idempotence.  After the remote worker has gone through a queue without
    an error, going through the same queue again on the world it left makes
    no backend call and no write and leaves the file system, the backend and
    the clock as they are: every request is skipped.  The tagger is assumed
    to remove no file. *)
Theorem rerun_is_idempotent (q : Chan) (w : World) :
  tagger_keeps_files ->
  (processSpeechGeneration q w).1.1 = Next ->
  let w1 := (processSpeechGeneration q w).2 in
  exists w2,
    processSpeechGeneration q w1 = (Next, [], w2) /\
    fs w2 = fs w1 /\ backend w2 = backend w1 /\ now w2 = now w1 /\
    Forall (fun e => is_call e = false /\ is_write e = false) (new_events w1 w2).
Proof.
  intros Hk H. cbn zeta.
  destruct (run_closed q _ (run_closes q w Hk H)) as (w2 & evs & Hr & Hfs & Hb & Hn & Htr & Hev).
  exists w2. rewrite (new_events_app _ _ _ Htr). auto.
Qed.

(** The local worker: a pass never calls the remote backend and never
    sleeps, and it ends the process exactly when the gate is open and
    [Save] reports a failure. *)
Theorem offline_pass (workerItem : WorkerRequest) (w : World) :
  let r := processItemOffline workerItem w in
  let item := WR_Item workerItem in
  let wav := filePath (WR_Directory workerItem) (Title item) ".wav" in
  backend r.2 = backend w /\ now r.2 = now w /\
  (exists evs, trace r.2 = trace w ++ evs /\
     Forall (fun e => is_call e = false /\ is_sleep e = false /\ is_write e = false) evs) /\
  (r.1 = Exit <->
   gate_open workerItem ".wav" w /\
   (Save (Generate (routeModel (Title item)) (offlineContent item) 1
            0x1.999999999999ap-1%float) wav (fs w)).2 = false).
Proof.
  cbn zeta. destruct (gate_dec workerItem ".wav" w) as [Hc|Ho].
  - assert (Hskip : exists p, processItemOffline workerItem w =
              (Next, log_Printf (LogFileExists p)
                       (log_Printf (LogStart (Title (WR_Item workerItem))) w))).
    { unfold gate_closed in Hc.
      unfold processItemOffline, shouldSkip, fileExistsAndLog.
      cbn [log_Printf emit fs].
      destruct (os.Stat (fs w) (legacyFilePath _)) eqn:Hl; [eauto|].
      cbn [orb] in Hc. cbn [log_Printf emit fs]. rewrite Hc. eauto. }
    destruct Hskip as (p & ->). cbn [fst snd].
    split; [reflexivity|]. split; [reflexivity|]. split.
    + eexists. split; [world_simpl; rewrite <- app_assoc; reflexivity|].
      repeat constructor.
    + split; [discriminate|].
      intros [[Hl Hp] _]. unfold gate_closed in Hc. rewrite Hl, Hp in Hc.
      discriminate Hc.
  - rewrite (processItemOffline_open workerItem w Ho). cbn zeta.
    change (fs (log_Printf (LogStart (Title (WR_Item workerItem))) w)) with (fs w).
    destruct (Save _ _ (fs w)) as [fs1 ok]. cbn [snd].
    destruct ok; cbn [negb].
    + unfold stamp, os_Chtimes.
      destruct (os.Chtimes _ _ _ _); cbn [fst snd]; world_simpl;
        (split; [reflexivity|]; split; [reflexivity|]; split;
         [eexists; split; [rewrite <- !app_assoc; reflexivity | repeat constructor]
         |split; [discriminate | now intros [_ ?]]]).
    + cbn [fst snd]. world_simpl.
      split; [reflexivity|]. split; [reflexivity|]. split.
      * eexists. split; [rewrite <- !app_assoc; reflexivity | repeat constructor].
      * split; auto.
Qed.

End Idempotence.

(** ** The identifier and the sanitized title as file names *)

Section Names.

Lemma prefix_length (n : nat) :
  forall s, String.length (prefix n s) = Nat.min n (String.length s).
Proof.
  induction n as [|n IH]; intros [|c s]; cbn [prefix String.length]; try reflexivity.
  now rewrite IH.
Qed.

Lemma prefix_all (n : nat) :
  forall s, (String.length s <= n)%nat -> prefix n s = s.
Proof.
  induction n as [|n IH]; intros [|c s] H; cbn [prefix String.length] in *;
    try reflexivity; try lia.
  f_equal. apply IH. lia.
Qed.

Lemma prefix_prefix (m n : nat) :
  forall s, (m <= n)%nat -> prefix m (prefix n s) = prefix m s.
Proof.
  revert n. induction m as [|m IH]; intros n s H; [reflexivity|].
  destruct n as [|n]; [lia|]. destruct s as [|c s]; [reflexivity|].
  cbn [prefix]. f_equal. apply IH. lia.
Qed.

Lemma all_chars_prefix (P : ascii -> bool) (n : nat) :
  forall s, all_chars P s = true -> all_chars P (prefix n s) = true.
Proof.
  induction n as [|n IH]; intros [|c s] H; cbn [prefix all_chars] in *;
    try reflexivity.
  apply andb_prop in H as [-> H]. now apply IH.
Qed.

Lemma hexdigits_of_byte (b : byte) :
  is_hexdigit (hexdigit (Z.shiftr (byte_val b) 4)) = true /\
  is_hexdigit (hexdigit (Z.land (byte_val b) 15)) = true /\
  unhex (hexdigit (Z.shiftr (byte_val b) 4)) (hexdigit (Z.land (byte_val b) 15)) = b.
Proof. destruct b; vm_compute; auto. Qed.

Lemma EncodeToString_hex (l : bytes) :
  all_chars is_hexdigit (EncodeToString l) = true.
Proof.
  induction l as [|b l IH]; [reflexivity|].
  cbn [EncodeToString all_chars].
  destruct (hexdigits_of_byte b) as (-> & -> & _). exact IH.
Qed.

(** [hex.EncodeToString] loses nothing. *)
Lemma EncodeToString_inj (l1 : bytes) :
  forall l2, EncodeToString l1 = EncodeToString l2 -> l1 = l2.
Proof.
  induction l1 as [|b1 l1 IH]; intros [|b2 l2] H; cbn [EncodeToString] in H;
    try reflexivity; try discriminate H.
  injection H as Hhi Hlo Hrest.
  destruct (hexdigits_of_byte b1) as (_ & _ & <-).
  destruct (hexdigits_of_byte b2) as (_ & _ & <-).
  rewrite Hhi, Hlo. f_equal. now apply IH.
Qed.

Lemma bytes_of_string_inj (s1 s2 : string) :
  bytes_of_string s1 = bytes_of_string s2 -> s1 = s2.
Proof.
  unfold bytes_of_string. intros H.
  rewrite <- (String.string_of_list_byte_of_string s1),
          <- (String.string_of_list_byte_of_string s2).
  now rewrite H.
Qed.

Lemma hashString_prefix (title : string) :
  hashString title =
    prefix 50 (EncodeToString (bytes_of_string title ++ md5.checkSum [])).
Proof.
  rewrite hashString_unfold. cbn zeta.
  destruct (Z.ltb_spec 50 (Z.of_nat (String.length
              (EncodeToString (bytes_of_string title ++ md5.checkSum []))))) as [H|H];
    [reflexivity|].
  symmetry. apply prefix_all. lia.
Qed.

Lemma all_chars_no (P : ascii -> bool) (c : ascii) :
  P c = false -> forall s, all_chars P s = true -> Contains s (String c EmptyString) = false.
Proof.
  intros Hc. induction s as [|a s IH]; intros H; [reflexivity|].
  cbn [all_chars] in H. apply andb_prop in H as [Ha H].
  rewrite Contains_cons. cbn [HasPrefix].
  destruct (Ascii.eqb_spec c a) as [->|_]; [congruence|]. now apply IH.
Qed.

(** The identifier is made of lower-case hexadecimal digits only, it holds
    no path separator, and it is [min(50, 2 * len(title) + 32)] bytes long. *)
Theorem identifier_shape (title : string) :
  all_chars is_hexdigit (hashString title) = true /\
  Contains (hashString title) "/" = false /\
  String.length (hashString title) = Nat.min 50 (2 * String.length title + 32).
Proof.
  assert (Hhex : all_chars is_hexdigit (hashString title) = true).
  { rewrite hashString_prefix. apply all_chars_prefix, EncodeToString_hex. }
  split; [exact Hhex|]. split.
  - now apply (all_chars_no is_hexdigit "/"%char).
  - assert (H16 : length (md5.checkSum []) = 16%nat) by (vm_compute; reflexivity).
    rewrite hashString_prefix, prefix_length, EncodeToString_length, length_app,
      bytes_of_string_length, H16. lia.
Qed.

(** Which titles share an identifier: among titles of the same length, or
    of 25 bytes and more, exactly those that agree on their first 25 bytes. *)
Theorem identifier_decides_25_bytes (t1 t2 : string) :
  String.length t1 = String.length t2 \/
  ((25 <= String.length t1)%nat /\ (25 <= String.length t2)%nat) ->
  (hashString t1 = hashString t2 <-> prefix 25 t1 = prefix 25 t2).
Proof.
  intros Hlen.
  assert (Hlong : (25 <= String.length t1)%nat -> (25 <= String.length t2)%nat ->
                  (hashString t1 = hashString t2 <-> prefix 25 t1 = prefix 25 t2)).
  { intros H1 H2. rewrite !hashString_long by assumption. split.
    - intros H. now apply bytes_of_string_inj, EncodeToString_inj.
    - now intros ->. }
  destruct (Nat.le_gt_cases 25 (String.length t1)) as [H1|H1].
  - apply Hlong; [assumption|]. destruct Hlen as [E|[_ ?]]; [lia | assumption].
  - destruct Hlen as [E|[? _]]; [|lia].
    rewrite (prefix_all 25 t1), (prefix_all 25 t2) by lia. split; [|now intros ->].
    intros H. apply (f_equal (prefix (2 * String.length t1))) in H.
    rewrite !hashString_prefix, !prefix_prefix in H by lia.
    rewrite prefix_EncodeToString in H by lia. rewrite E in H at 2.
    rewrite prefix_EncodeToString in H by lia.
    rewrite !prefix_all in H by lia.
    now apply bytes_of_string_inj, EncodeToString_inj.
Qed.

Lemma identifier_decides_25_bytes_witness :
  hashString Demo.title1 = hashString Demo.title2 <->
  prefix 25 Demo.title1 = prefix 25 Demo.title2.
Proof.
  apply (identifier_decides_25_bytes Demo.title1 Demo.title2).
  left. reflexivity.
Defined.

Lemma append_two (a b : ascii) (s : string) :
  String a (String b EmptyString) +:+ s = String a (String b s).
Proof. reflexivity. Qed.

(** The sanitized title still holds every path separator of the title (each
    one merely gets a backslash in front), so the legacy file name of a
    title with a [/] is not a single path element; a title without one is
    left as it is. *)
Theorem sanitizedTitle_keeps_separators (title : string) :
  Contains (sanitizedTitle title) "/" = Contains title "/" /\
  (Contains title "/" = false <-> sanitizedTitle title = title).
Proof.
  unfold sanitizedTitle. induction title as [|c t [IH1 IH2]].
  - split; [reflexivity|]. now split.
  - cbn [ReplaceAll]. rewrite (Contains_cons c t). cbn [HasPrefix].
    rewrite (Ascii.eqb_sym "/"%char c).
    destruct (Ascii.eqb_spec c "/"%char) as [->|Hc].
    + cbn [orb]. split; [reflexivity|]. split; [discriminate|].
      intros H. apply (f_equal String.length) in H.
      rewrite append_two in H. cbn [String.length] in H.
      assert (Hge : (String.length t <= String.length (ReplaceAll t "/" "\/"))%nat).
      { clear. induction t as [|a t IH]; [reflexivity|]. cbn [ReplaceAll].
        destruct (Ascii.eqb a "/"); rewrite ?append_two; cbn [String.length]; lia. }
      lia.
    + cbn [orb]. rewrite Contains_cons. cbn [HasPrefix].
      rewrite (Ascii.eqb_sym "/"%char c).
      destruct (Ascii.eqb_spec c "/"%char) as [?|_]; [contradiction|].
      cbn [orb]. split; [exact IH1|]. rewrite IH2. split; [now intros ->|].
      now intros [= ?].
Qed.

(** The normalized language tag holds no "zh" any more: normalizing twice
    is normalizing once. *)
Theorem feedLanguage_idempotent (lang : string) :
  Contains (ToLower (feedLanguage lang)) "zh" = false /\
  feedLanguage (feedLanguage lang) = feedLanguage lang.
Proof.
  assert (H : Contains (ToLower (feedLanguage lang)) "zh" = false).
  { unfold feedLanguage. destruct (Contains (ToLower lang) "zh") eqn:E;
      [reflexivity | exact E]. }
  split; [exact H|]. unfold feedLanguage at 1. now rewrite H.
Qed.

End Names.

(** ** The producers *)

Section Producers.

Context `{Ext : Externals}.

Lemma filter_upto_missing_none (cfg : Config) (now : time.Time) (items : list Item) :
  Forall (fun item => recent cfg now item = false) items ->
  List.filter (recent cfg now) (upto_missing items) = [].
Proof.
  induction 1 as [|item items Hi _ IH]; [reflexivity|].
  cbn [upto_missing]. destruct (has_publish item); [|reflexivity].
  cbn [List.filter]. now rewrite Hi.
Qed.

Lemma upto_missing_length (items : list Item) :
  (length (upto_missing items) <= length items)%nat.
Proof.
  induction items as [|item items IH]; [reflexivity|].
  cbn [upto_missing]. destruct (has_publish item); cbn [length]; lia.
Qed.

(** The loop of the producer, whatever the items: it sends a request for
    each item in the window up to the first item without a publish time,
    and touches nothing but the channel and the log. *)
Lemma produce_general (cfg : Config) (lang dir : string) (size : Z) (items : list Item) :
  forall itemCnt ch w,
    itemCnt + Z.of_nat (length items) <= size ->
    let r := produce cfg lang dir size items itemCnt ch w in
    r.1.2 = ch ++ map (request_for cfg lang dir)
                    (List.filter (recent cfg (now w)) (upto_missing items)) /\
    fs r.2 = fs w /\ backend r.2 = backend w /\ now r.2 = now w.
Proof.
  induction items as [|item items IH]; intros itemCnt ch w Hsz; cbn zeta.
  - cbn. now rewrite app_nil_r.
  - cbn [length] in Hsz. cbn [produce upto_missing]. unfold has_publish.
    destruct (PublishedParsed item) as [t|] eqn:Hp.
    + cbn [List.filter isInRange]. unfold recent at 1. rewrite Hp. cbn [isInRange].
      destruct (PrimFloat.leb _ _).
      * assert (Hlt : (itemCnt <? size) = true) by (apply Z.ltb_lt; lia).
        rewrite Hlt. cbn [andb].
        destruct (IH (itemCnt + 1)
                    (ch ++ [{| WR_Item := item; WR_Directory := dir;
                               WR_LanguageCode := lang;
                               WR_UseNaturalVoice := UseNaturalVoice cfg;
                               WR_SpeechSpeed := SpeechSpeed cfg |}])
                    (log_Printf (LogAdding (Title item)) w) ltac:(lia))
          as (-> & -> & -> & ->).
        cbn [map]. rewrite <- app_assoc. auto.
      * cbn [andb]. apply IH. lia.
    + cbn. now rewrite app_nil_r.
Qed.

(** The channel after the producer, and what the producer leaves alone. *)
Lemma producer_channel (cfg : Config) (feed : Feed) (dir : string)
    (ch : Chan) (w : World) :
  let r := CreateSpeechFromItems cfg feed dir ch w in
  r.1.2 = ch ++ map (request_for cfg (feedLanguage (Language feed)) dir)
                  (List.filter (recent cfg (now w)) (upto_missing (considered cfg feed))) /\
  fs r.2 = fs w /\ backend r.2 = backend w /\ now r.2 = now w.
Proof.
  cbn zeta. rewrite considered_eq. unfold CreateSpeechFromItems.
  set (size := itemSize _ _).
  destruct (Z.ltb_spec size 0) as [Hneg|Hpos].
  - replace (Z.to_nat size) with 0%nat by lia. cbn. now rewrite app_nil_r.
  - apply (produce_general cfg (feedLanguage (Language feed)) dir size
             (firstn (Z.to_nat size) (Items feed)) 0 ch
             (log_Printf (LogFeedTitle (Feed_Title feed)) w)).
    rewrite length_firstn. lia.
Qed.

(** What the producer sends, for every feed: behind what the channel held,
    one request for each considered item that is in the window and comes
    before the first considered item without a publish time, in feed order:
    those are already sent when the producer panics.  It adds at most
    [MaxItemPerFeed] requests and changes neither the file system, nor the
    backend, nor the clock. *)
Theorem producer_sends (cfg : Config) (feed : Feed) (dir : string)
    (ch : Chan) (w : World) :
  let r := CreateSpeechFromItems cfg feed dir ch w in
  r.1.2 = ch ++ map (request_for cfg (feedLanguage (Language feed)) dir)
                  (List.filter (recent cfg (now w)) (upto_missing (considered cfg feed))) /\
  (length r.1.2 <= length ch + Z.to_nat (MaxItemPerFeed cfg))%nat /\
  fs r.2 = fs w /\ backend r.2 = backend w /\ now r.2 = now w.
Proof.
  cbn zeta.
  assert (Hlen : (length (List.filter (recent cfg (now w))
                    (upto_missing (considered cfg feed))) <= Z.to_nat (MaxItemPerFeed cfg))%nat).
  { etransitivity; [apply List.filter_length_le|].
    etransitivity; [apply upto_missing_length|].
    unfold considered. rewrite length_firstn. lia. }
  destruct (producer_channel cfg feed dir ch w) as (Hch & Hfs & Hb & Hn).
  repeat split; try assumption.
  rewrite Hch, length_app, length_map. lia.
Qed.

Lemma main_produce_general (cfg : Config) (lang dir : string) (items : list Item) :
  forall (ch : list MainRequest) w,
    let r := main_produce cfg lang dir items ch w in
    r.1.2 = ch ++ map (fun item => {| MR_Item := item; MR_Directory := dir;
                                      MR_LanguageCode := lang;
                                      MR_UseNaturalVoice := UseNaturalVoice cfg |})
                    (List.filter (recent cfg (now w)) (upto_missing items)) /\
    r.1.1 = if forallb has_publish items then Finished
            else Panicked "invalid memory address or nil pointer dereference".
Proof.
  induction items as [|item items IH]; intros ch w; cbn zeta.
  - cbn. now rewrite app_nil_r.
  - cbn [main_produce upto_missing forallb]. unfold has_publish at 1 2.
    destruct (PublishedParsed item) as [t|] eqn:Hp.
    + cbn [List.filter isInRange andb]. unfold recent at 1. rewrite Hp. cbn [isInRange].
      destruct (PrimFloat.leb _ _).
      * destruct (IH (ch ++ [{| MR_Item := item; MR_Directory := dir;
                                MR_LanguageCode := lang;
                                MR_UseNaturalVoice := UseNaturalVoice cfg |}]) w)
          as (-> & ->).
        cbn [map]. rewrite <- app_assoc. auto.
      * apply IH.
    + cbn. now rewrite app_nil_r.
Qed.

(** The older producer of [package main] and the newer one agree: on the
    same feed they end the same way and send requests for the same items in
    the same order, the older one with the feed's language tag as it is, the
    newer one with the normalized tag and the speech speed.  The counter
    guard of the newer one filters nothing. *)
Theorem producers_agree (cfg : Config) (feed : Feed) (dir : string)
    (ch : Chan) (w : World) :
  let new := CreateSpeechFromItems cfg feed dir ch w in
  let old := main_createSpeechFromItems cfg feed dir (map older ch) w in
  old.1.1 = new.1.1 /\
  exists added,
    new.1.2 = ch ++ added /\
    old.1.2 = map older ch ++
              map (fun r => {| MR_Item := WR_Item r; MR_Directory := WR_Directory r;
                               MR_LanguageCode := Language feed;
                               MR_UseNaturalVoice := WR_UseNaturalVoice r |}) added.
Proof.
  cbn zeta. split.
  - unfold CreateSpeechFromItems, main_createSpeechFromItems.
    set (size := itemSize _ _). destruct (size <? 0); [reflexivity|].
    rewrite produce_outcome.
    now destruct (main_produce_general cfg (Language feed) dir
                    (firstn (Z.to_nat size) (Items feed)) (map older ch)
                    (log_Printf (LogFeedTitle (Feed_Title feed)) w)) as (_ & ->).
  - destruct (producer_channel cfg feed dir ch w) as (Hnew & _).
    eexists. split; [exact Hnew|].
    rewrite considered_eq. unfold main_createSpeechFromItems.
    set (size := itemSize _ _).
    destruct (Z.ltb_spec size 0) as [Hneg|Hpos].
    + replace (Z.to_nat size) with 0%nat by lia. cbn. now rewrite app_nil_r.
    + destruct (main_produce_general cfg (Language feed) dir
                  (firstn (Z.to_nat size) (Items feed)) (map older ch)
                  (log_Printf (LogFeedTitle (Feed_Title feed)) w)) as (-> & _).
      f_equal. now rewrite map_map.
Qed.

Lemma hasValidItems_none (cfg : Config) (now : time.Time) (items : list Item) :
  forall i, 0 <= i ->
    hasValidItems cfg now items i = Some (-1) ->
    Forall (fun item => recent cfg now item = false) items.
Proof.
  induction items as [|item items IH]; intros i Hi H; [constructor|].
  cbn [hasValidItems] in H.
  destruct (isInRange now (PublishedParsed item) (ItemSince cfg)) as [[|]|] eqn:E;
    try discriminate H.
  - injection H as H. lia.
  - constructor; [unfold recent; now rewrite E|].
    apply (IH (i + 1)); [lia | exact H].
Qed.

(** The early return of [main]: when its search finds no item in the window
    ([hasValidItems == -1]) the producer, the older and the newer one alike,
    would have sent nothing, so skipping the feed loses no request. *)
Theorem early_return_loses_nothing (cfg : Config) (feed : Feed) (dir : string)
    (ch : Chan) (mch : list MainRequest) (w : World) :
  hasValidItems cfg (now w) (Items feed) 0 = Some (-1) ->
  (CreateSpeechFromItems cfg feed dir ch w).1.2 = ch /\
  (main_createSpeechFromItems cfg feed dir mch w).1.2 = mch.
Proof.
  intros H. apply hasValidItems_none in H; [|lia].
  assert (Hnone : List.filter (recent cfg (now w)) (upto_missing (considered cfg feed)) = []).
  { apply filter_upto_missing_none. unfold considered. now apply Forall_take. }
  split.
  - destruct (producer_channel cfg feed dir ch w) as (-> & _).
    rewrite Hnone. cbn. now rewrite app_nil_r.
  - rewrite considered_eq in Hnone. unfold main_createSpeechFromItems.
    set (size := itemSize _ _) in *. destruct (size <? 0); [reflexivity|].
    destruct (main_produce_general cfg (Language feed) dir
                (firstn (Z.to_nat size) (Items feed)) mch
                (log_Printf (LogFeedTitle (Feed_Title feed)) w)) as (-> & _).
    change (now (log_Printf (LogFeedTitle (Feed_Title feed)) w)) with (now w).
    rewrite Hnone. cbn. now rewrite app_nil_r.
Qed.

End Producers.

Lemma early_return_loses_nothing_witness :
  (@CreateSpeechFromItems Demo.ext Demo.cfg Demo.feedB "/out" [] (Demo.boot [])).1.2 = [] /\
  (@main_createSpeechFromItems Demo.ext Demo.cfg Demo.feedB "/out" [] (Demo.boot [])).1.2 = [].
Proof.
  apply (@early_return_loses_nothing Demo.ext Demo.cfg Demo.feedB "/out" [] []
           (Demo.boot [])).
  vm_compute. reflexivity.
Defined.

(** ** The pool and the older worker *)

Section Pools.

Context `{Ext : Externals}.

Lemma run_pool_cons (i : nat) (schedule : list nat) (p : Pool) :
  run_pool (i :: schedule) p = run_pool schedule (pool_step p i).
Proof. reflexivity. Qed.

(** One turn: the channel loses at most its oldest request, and the workers
    that have returned stay as they are. *)
Lemma pool_step_props (p : Pool) (i : nat) :
  let p1 := pool_step p i in
  closed p1 = closed p /\
  length (workers p1) = length (workers p) /\
  (chan p1 = chan p \/ exists r, chan p = r :: chan p1) /\
  (forall j f, workers p !! j = Some (Some f) -> workers p1 !! j = Some (Some f)).
Proof.
  cbn zeta. unfold pool_step.
  destruct (workers p !! i) as [[f0|]|] eqn:Hi; try (repeat split; auto; fail).
  assert (Hkeep : forall st j f, workers p !! j = Some (Some f) ->
                    <[i := st]> (workers p) !! j = Some (Some f)).
  { intros st j f Hj. rewrite list_lookup_insert_ne; [exact Hj | congruence]. }
  destruct (chan p) as [|r rest] eqn:Hc.
  - destruct (closed p) eqn:Hcl; cbn [closed workers chan].
    + rewrite length_insert. repeat split; auto.
    + rewrite Hcl, Hc. repeat split; auto.
  - destruct (processItem r (world p)) as [[| |] w1]; cbn [closed workers chan];
      rewrite ?length_insert; repeat split; eauto.
Qed.

(** The channel is a queue, whatever the schedule: the requests received are
    a prefix of those that were waiting, at most one per turn, and the rest
    are still waiting in their order; no turn closes or reopens the channel,
    adds or removes a worker, or revives a worker that has returned. *)
Theorem pool_is_fifo (schedule : list nat) :
  forall p : Pool,
    let p1 := run_pool schedule p in
    (exists taken, chan p = taken ++ chan p1 /\
                   (length taken <= length schedule)%nat) /\
    closed p1 = closed p /\
    length (workers p1) = length (workers p) /\
    (forall j f, workers p !! j = Some (Some f) -> workers p1 !! j = Some (Some f)).
Proof.
  induction schedule as [|i schedule IH]; intros p; cbn zeta.
  - split; [exists []; split; [reflexivity | cbn; lia]|]. auto.
  - rewrite run_pool_cons.
    destruct (pool_step_props p i) as (Hcl & Hlen & Hch & Hret).
    destruct (IH (pool_step p i)) as ((taken & Ht & Hn) & Hcl1 & Hlen1 & Hret1).
    split; [|split; [congruence | split; [congruence | auto]]].
    destruct Hch as [Heq | (r & Heq)].
    + exists taken. rewrite <- Heq. split; [exact Ht | cbn; lia].
    + exists (r :: taken). rewrite Heq, Ht. split; [reflexivity | cbn; lia].
Qed.

(** A pool of one worker on a closed channel, given one turn more than
    there are requests, does what [processSpeechGeneration] does on these
    requests: same world, same requests left, and the worker has returned
    what the function returns. *)
Theorem single_worker_pool (p : Pool) :
  workers p = [None] ->
  closed p = true ->
  let r := processSpeechGeneration (chan p) (world p) in
  run_pool (repeat 0%nat (S (length (chan p)))) p =
    {| chan := r.1.2; closed := true; workers := [Some r.1.1]; world := r.2 |}.
Proof.
  destruct p as [ch cl ws w]. cbn [workers closed chan world]. intros -> ->. cbn zeta.
  unfold processSpeechGeneration. revert w.
  induction ch as [|r rest IH]; intros w.
  - reflexivity.
  - cbn [length]. change (repeat 0%nat (S (S (length rest))))
      with (0%nat :: repeat 0%nat (S (length rest))).
    rewrite run_pool_cons, run_worker_cons.
    unfold pool_step. cbn [workers chan closed world lookup list_lookup].
    change ([None] !! 0%nat) with (Some (@None Flow)). cbv beta iota.
    destruct (processItem r w) as [[|e|] w1]; cbn [fst snd].
    + apply IH.
    + apply run_pool_idle. apply Forall_forall. intros j Hj.
      apply list_elem_of_In, repeat_spec in Hj. subst j. cbn. discriminate.
    + apply run_pool_idle. apply Forall_forall. intros j Hj.
      apply list_elem_of_In, repeat_spec in Hj. subst j. cbn. discriminate.
Qed.

(** Without failures the retry loop is the older synthesis: when the
    backend serves every chunk at the first call, the synthesis phase of the
    newer worker and that of the older one give the same audio and leave the
    same world. *)
Theorem retry_refines_older (ssrs : list SSR) :
  forall audio w Bs b1,
    served (repeat 0%nat (length ssrs)) ssrs (backend w) = Some (Bs, b1) ->
    synthesizeAll ssrs audio w = main_synthesizeAll ssrs audio w.
Proof.
  induction ssrs as [|ssr ssrs IH]; intros audio w Bs b1 Hs; [reflexivity|].
  cbn [length repeat served replies] in Hs. cbn [forallb] in Hs.
  destruct (SynthesizeSpeech (backend w) ssr) as [b2 [a|e]] eqn:Hcall; [|discriminate Hs].
  destruct (0 <? Z.of_nat (length a)) eqn:Hne; [|discriminate Hs].
  destruct (served _ ssrs b2) as [[Bs1 b3]|] eqn:Hs1; [|discriminate Hs].
  assert (Hc : call_backend ssr w =
                 (inl a, emit (EvCall ssr (inl a)) (set_backend b2 w)))
    by (unfold call_backend; now rewrite Hcall).
  cbn [synthesizeAll main_synthesizeAll]. unfold synthesizeChunk.
  change (Z.to_nat SPEECH_SYNTHESIZE_RETRY_CNT) with 5%nat.
  rewrite (retry_step 4 0 ssr None audio w _ (inl a)) by exact Hc.
  rewrite Hne, Hc. eapply IH. exact Hs1.
Qed.

Lemma main_synthesizeAll_fs (ssrs : list SSR) :
  forall audio w, fs (main_synthesizeAll ssrs audio w).2 = fs w.
Proof.
  induction ssrs as [|ssr ssrs IH]; intros audio w; [reflexivity|].
  cbn [main_synthesizeAll].
  destruct (call_backend ssr w) as [[a|e] w1] eqn:Hc;
    apply call_backend_spec in Hc as (_ & Hfs & _).
  - now rewrite IH.
  - exact Hfs.
Qed.

(** The older worker removes no file, and a pass that goes on to the next
    request has left its file behind. *)
Lemma main_processItem_fs (workerItem : WorkerRequest) (w : World) :
  (forall p, os.Stat (fs w) p = true ->
             os.Stat (fs (main_processItem workerItem w).2) p = true) /\
  ((main_processItem workerItem w).1 = None ->
   os.Stat (fs (main_processItem workerItem w).2) (main_filepath workerItem) = true).
Proof.
  unfold main_processItem.
  destruct (os.Stat (fs w) (main_filepath workerItem)) eqn:Hst.
  - split; [intros p Hp; exact Hp | discriminate].
  - set (w0 := log_Printf _ w).
    pose proof (main_synthesizeAll_fs
                  (GetSynthesizeSpeechRequests (WR_Item workerItem)
                     (WR_LanguageCode workerItem) (WR_UseNaturalVoice workerItem)
                     (WR_SpeechSpeed workerItem)) [] w0) as Hfs.
    change (fs w0) with (fs w) in Hfs.
    destruct (main_synthesizeAll _ [] w0) as [[audio|e] w1]; cbn [fst snd] in *.
    + unfold os_WriteFile.
      destruct (os.WriteFile _ _ _ _ _ _) as [fs1|e] eqn:Hw; cbn [fst snd]; world_simpl.
      * split.
        -- intros p Hp. rewrite <- Hfs in Hp. exact (WriteFile_keeps _ _ _ _ _ _ _ _ Hw Hp).
        -- intros _. unfold os.WriteFile in Hw.
           destruct (fs w1 !! main_filepath workerItem) as [f|].
           ++ destruct (os.isdir f); [discriminate|]. injection Hw as <-.
              unfold os.Stat. now rewrite lookup_insert_eq.
           ++ destruct (os.is_directory _ _); [|discriminate]. injection Hw as <-.
              unfold os.Stat. now rewrite lookup_insert_eq.
      * split; [intros p Hp; now rewrite Hfs | discriminate].
    + split; [intros p Hp; now rewrite Hfs | discriminate].
Qed.

Lemma main_run_keeps (q : Chan) :
  forall w p,
    os.Stat (fs w) p = true ->
    os.Stat (fs (speechSynthesizeWorker q w).2) p = true.
Proof.
  induction q as [|r q IH]; intros w p Hp; [exact Hp|].
  cbn [speechSynthesizeWorker].
  pose proof (proj1 (main_processItem_fs r w) p Hp) as Hp1.
  destruct (main_processItem r w) as [[ret|] w1]; cbn [snd] in *; auto.
Qed.

(** The older worker is not idempotent over a queue.  After it has written
    the file of the first request and gone on, a second run over the same
    queue finds that file, returns nil at once and leaves every other
    request of the queue unreceived. *)
Theorem older_worker_rerun_stops (r : WorkerRequest) (rest : Chan) (w : World) :
  (main_processItem r w).1 = None ->
  let w1 := (speechSynthesizeWorker (r :: rest) w).2 in
  speechSynthesizeWorker (r :: rest) w1 =
    (None, rest, log_Printf (LogFileExists (main_filepath r)) w1).
Proof.
  intros H. cbn zeta.
  assert (Hst : os.Stat (fs (speechSynthesizeWorker (r :: rest) w).2) (main_filepath r)
                = true).
  { cbn [speechSynthesizeWorker].
    pose proof (proj2 (main_processItem_fs r w) H) as Hp.
    destruct (main_processItem r w) as [[ret|] wa]; cbn [fst snd] in *;
      [discriminate H|].
    now apply main_run_keeps. }
  set (w1 := (speechSynthesizeWorker (r :: rest) w).2) in *.
  cbn [speechSynthesizeWorker]. unfold main_processItem. now rewrite Hst.
Qed.

End Pools.

(** ** A chunk that is never served, and a request that is skipped *)

Section Edges.

Context `{Ext : Externals}.

(** When the five attempts for a chunk all fail, by an error or by an empty
    payload, the loop appends nothing; it reports the error of the fifth
    attempt if that one erred, and no error at all if the fifth attempt
    returned an empty payload, whatever the first four did. *)
Theorem chunk_exhausted (ssr : SSR) (audio : bytes) (w : World)
    (rs : list (bytes + error)) (b1 : Backend) :
  replies 5 ssr (backend w) = (rs, b1) ->
  forallb is_failure rs = true ->
  exists w1,
    synthesizeChunk ssr audio w =
      (match last rs with Some (inr e) => Some e | _ => None end, audio, w1) /\
    backend w1 = b1 /\ fs w1 = fs w.
Proof.
  intros Hrep Hfail.
  destruct (retry_failures ssr 5 0 None audio w rs b1 Hrep Hfail) as (w1 & Hret & Hb).
  pose proof (retry_quiet ssr 5 0 None audio w) as Hq. cbn zeta in Hq.
  exists w1. unfold synthesizeChunk.
  change (Z.to_nat SPEECH_SYNTHESIZE_RETRY_CNT) with 5%nat.
  rewrite Hret in Hq |- *. cbn [snd] in Hq. destruct Hq as (Hfs & _).
  split; [|auto]. now destruct (last rs) as [[?|?]|].
Qed.

(** A request whose gate is closed is skipped: the pass ends normally, its
    only effects are the start line and one line naming the path that was
    found, the legacy path when it exists and the artifact path otherwise;
    the backend is not called and nothing is written. *)
Theorem skip_only_logs (workerItem : WorkerRequest) (w : World) :
  gate_closed workerItem ".mp3" w ->
  let r := processItem workerItem w in
  let legacy := legacyFilePath (Title (WR_Item workerItem)) in
  r.1 = Next /\
  new_events w r.2 =
    [EvLog (LogStart (Title (WR_Item workerItem)));
     EvLog (LogFileExists (if os.Stat (fs w) legacy then legacy
                           else artifact workerItem))] /\
  fs r.2 = fs w /\ backend r.2 = backend w /\ now r.2 = now w.
Proof.
  intros Hc. cbn zeta.
  assert (Hp : processItem workerItem w =
            (Next, log_Printf
                     (LogFileExists
                        (if os.Stat (fs w) (legacyFilePath (Title (WR_Item workerItem)))
                         then legacyFilePath (Title (WR_Item workerItem))
                         else artifact workerItem))
                     (log_Printf (LogStart (Title (WR_Item workerItem))) w))).
  { unfold gate_closed in Hc.
    unfold processItem, shouldSkip, fileExistsAndLog. cbn [log_Printf emit fs].
    destruct (os.Stat (fs w) (legacyFilePath _)) eqn:Hl; [reflexivity|].
    cbn [orb] in Hc. cbn [log_Printf emit fs]. now rewrite Hc. }
  rewrite Hp. cbn [fst snd]. split; [reflexivity|]. split; [|now cbn].
  apply new_events_app. world_simpl. now rewrite <- app_assoc.
Qed.

End Edges.

Lemma chunk_exhausted_witness :
  exists w1,
    @synthesizeChunk Demo.ext "body"%string (bytes_of_string "A")
      (Demo.boot [Demo.boom 1; Demo.mp3 ""; Demo.boom 3; Demo.boom 4; Demo.mp3 ""]) =
      (None, bytes_of_string "A", w1).
Proof.
  destruct (@chunk_exhausted Demo.ext "body"%string (bytes_of_string "A")
              (Demo.boot [Demo.boom 1; Demo.mp3 ""; Demo.boom 3; Demo.boom 4; Demo.mp3 ""])
              [Demo.boom 1; Demo.mp3 ""; Demo.boom 3; Demo.boom 4; Demo.mp3 ""] [])
    as (w1 & H & _).
  - vm_compute. reflexivity.
  - vm_compute. reflexivity.
  - exists w1. exact H.
Defined.

Lemma skip_only_logs_witness :
  (@processItem Demo.ext (Demo.req Demo.itemA) Demo.stray).1 = Next /\
  fs (@processItem Demo.ext (Demo.req Demo.itemA) Demo.stray).2 = fs Demo.stray.
Proof.
  destruct (@skip_only_logs Demo.ext (Demo.req Demo.itemA) Demo.stray)
    as (H1 & _ & H2 & _).
  - vm_compute. reflexivity.
  - split; [exact H1 | exact H2].
Defined.

Lemma Demo_tagger_keeps_files : @tagger_keeps_files Demo.ext.
Proof.
  intros path title dir p fs0. cbn [WriteID3Tag Demo.ext]. unfold Demo.tagger.
  destruct (fs0 !! path) as [f|]; [|auto]. apply Stat_insert.
Qed.

Lemma rerun_is_idempotent_witness :
  exists w2,
    @processSpeechGeneration Demo.ext Demo.queue2
      (@processSpeechGeneration Demo.ext Demo.queue2 Demo.stocked).2 = (Next, [], w2) /\
    fs w2 = fs (@processSpeechGeneration Demo.ext Demo.queue2 Demo.stocked).2.
Proof.
  destruct (@rerun_is_idempotent Demo.ext Demo.queue2 Demo.stocked)
    as (w2 & H1 & H2 & _).
  - exact Demo_tagger_keeps_files.
  - vm_compute. reflexivity.
  - exists w2. split; [exact H1 | exact H2].
Defined.

Lemma single_worker_pool_witness :
  workers (run_pool (repeat 0%nat (S (length (chan Demo.pool1)))) Demo.pool1) =
    [Some (@processSpeechGeneration Demo.ext (chan Demo.pool1) (world Demo.pool1)).1.1].
Proof.
  rewrite (@single_worker_pool Demo.ext Demo.pool1); reflexivity.
Defined.

Lemma retry_refines_older_witness :
  @synthesizeAll Demo.ext ["C"; "body"]%string [] Demo.ready =
  @main_synthesizeAll Demo.ext ["C"; "body"]%string [] Demo.ready.
Proof.
  apply (@retry_refines_older Demo.ext ["C"; "body"]%string [] Demo.ready
           [bytes_of_string "a"; bytes_of_string "b"] []).
  vm_compute. reflexivity.
Defined.

Lemma older_worker_rerun_stops_witness :
  (@speechSynthesizeWorker Demo.ext Demo.queue2
     (@speechSynthesizeWorker Demo.ext Demo.queue2 Demo.stocked).2).1 =
    (None, [Demo.req Demo.itemC]).
Proof.
  unfold Demo.queue2.
  rewrite (@older_worker_rerun_stops Demo.ext (Demo.req Demo.itemA)
             [Demo.req Demo.itemC] Demo.stocked).
  - reflexivity.
  - vm_compute. reflexivity.
Defined.
